(** * shouldupdate: version store, release lookup and check flow

    A shallow embedding of the Go program (main.go, config.go, the GitHub
    checker and ui.go) together with the properties its specification
    states about it.

    Go strings are byte strings: they are modelled by [string] (a list of
    8-bit [ascii]).  The [Config] map is a [gmap string string].  Every
    function of the program that touches the file system, the network or
    the terminal is a state transformer over a [World]; the packages the
    program imports but does not define (encoding/json, net/http's URL
    check, BurntSushi/toml, path/filepath) are the fields of the class
    [GoLib]. *)

From Stdlib Require Import ZArith Ascii String List Bool Lia.
From Stdlib Require Import Numbers.DecimalString.
From stdpp Require Import base option list strings gmap fin_maps.
From stdpp Require Import sorting.

Local Open Scope string_scope.
Local Open Scope list_scope.

(** ** Go string primitives *)

Module GoString.

(** [strings.HasPrefix(s, prefix)]. *)
Fixpoint HasPrefix (s prefix : string) : bool :=
  match prefix, s with
  | EmptyString, _ => true
  | String _ _, EmptyString => false
  | String p prefix', String c s' =>
      if Ascii.eqb c p then HasPrefix s' prefix' else false
  end.

(** [s[n:]] for [n <= len(s)]. *)
Fixpoint drop (n : nat) (s : string) : string :=
  match n, s with
  | O, _ => s
  | S _, EmptyString => EmptyString
  | S n', String _ s' => drop n' s'
  end.

(** [strings.TrimPrefix(s, prefix)]: [s] without the leading [prefix]
    when it has one, [s] itself otherwise. *)
Definition TrimPrefix (s prefix : string) : string :=
  if HasPrefix s prefix then drop (String.length prefix) s else s.

(** [strings.Contains(s, substr)]: [substr] starts at some index of [s]. *)
Fixpoint Contains (s substr : string) : bool :=
  HasPrefix s substr ||
  match s with
  | EmptyString => false
  | String _ s' => Contains s' substr
  end.

(** The comparison operators of Go on strings compare byte by byte; a
    proper prefix is smaller. *)
Fixpoint cmp (a b : string) : comparison :=
  match a, b with
  | EmptyString, EmptyString => Eq
  | EmptyString, String _ _ => Lt
  | String _ _, EmptyString => Gt
  | String x a', String y b' =>
      match N.compare (N_of_ascii x) (N_of_ascii y) with
      | Eq => cmp a' b'
      | c => c
      end
  end.

(** [a == b] *)
Definition eq (a b : string) : bool := String.eqb a b.

(** [a > b] *)
Definition gt (a b : string) : bool :=
  match cmp a b with Gt => true | _ => false end.

(** [%d] of [fmt.Sprintf] at an [int]. *)
Definition itoa (n : Z) : string := NilZero.string_of_int (Z.to_int n).

End GoString.

(** ** What the specification calls things *)

(** The bytes of a string. *)
Definition bytes (s : string) : list ascii := list_ascii_of_string s.

(** [sub] occurs in [s]. *)
Definition occurs_in (sub s : string) : Prop :=
  exists before after, s = before +:+ sub +:+ after.

(** Number of [/] separators of an identifier. *)
Definition slashes (s : string) : nat := count_occ ascii_dec (bytes s) "/"%char.

(** Strict byte-wise lexicographic order, as the specification reads it. *)
Inductive lex_lt : string -> string -> Prop :=
| lex_lt_nil c s : lex_lt EmptyString (String c s)
| lex_lt_head c d s t :
    (N_of_ascii c < N_of_ascii d)%N -> lex_lt (String c s) (String d t)
| lex_lt_tail c s t : lex_lt s t -> lex_lt (String c s) (String c t).


(** ** Results, the imported packages, the world *)

(** A Go [(T, error)] pair of which exactly one side is meaningful:
    [Err e] carries the text of [err.Error()]. *)
Inductive result (A : Type) : Type :=
| Ok (a : A)
| Err (e : string).
Arguments Ok {A} a.
Arguments Err {A} e.

Definition is_ok {A} (r : result A) : bool :=
  match r with Ok _ => true | Err _ => false end.

(** [type Config map[string]string] *)
Abbreviation Config := (gmap string string).

(** [GitHubReleaseInfo] of the checker. *)
Record GitHubReleaseInfo := {
  TagName : string;
  Name : string;
  Body : string;
  HTMLURL : string
}.

(** The anonymous error struct [ghError] of the checker. *)
Record GitHubError := {
  Message : string;
  DocumentationURL : string
}.

(** The functions the program imports and does not define.  A field left
    out of a JSON object decodes to the empty string. *)
Class GoLib := {
  (** [json.NewDecoder(body).Decode(&releaseInfo)] *)
  json_decode_release : string -> result GitHubReleaseInfo;
  (** [json.NewDecoder(body).Decode(&ghError)] *)
  json_decode_error : string -> result GitHubError;
  (** the error of [http.NewRequest(method, url, nil)], if any *)
  http_NewRequest : string -> string -> option string;
  (** [toml.Marshal(config)] *)
  toml_Marshal : Config -> result string;
  (** [toml.Unmarshal(data, &config)] into a fresh map *)
  toml_Unmarshal : string -> result Config;
  (** [filepath.Dir(path)] *)
  filepath_Dir : string -> string
}.

(** What [client.Do(req)] comes back with. *)
Inductive RoundTrip :=
| TransportError (cause : string)
| Response (StatusCode : Z) (body : string).

(** Everything the program does to its surroundings, in order.  [EvHttp]
    is a request handed to [client.Do]. *)
Inductive Event :=
| EvStdout (text : string)
| EvStderr (text : string)
| EvLog (text : string)
| EvStat (path : string)
| EvReadFile (path : string)
| EvMkdirAll (path : string)
| EvWriteFile (path data : string)
| EvHttp (method url : string) (headers : list (string * string)).

(** The surroundings: the package variable [configFile], the files that
    exist with their contents, what the operating system and the network
    answer, the order in which [range] walks a map, and the trace of
    events so far.  [read_error path] is the failure, other than "no
    such file", of looking at or reading [path]: permission denied, not a
    directory, an input/output error. *)
Record World := {
  configFile : string;
  files : gmap string string;
  read_error : string -> option string;
  mkdir_error : string -> option string;
  write_error : string -> option string;
  server : string -> RoundTrip;
  range_order : Config -> list (string * string);
  trace : list Event
}.

Definition with_trace (w : World) (t : list Event) : World :=
  {| configFile := configFile w; files := files w;
     read_error := read_error w; mkdir_error := mkdir_error w;
     write_error := write_error w; server := server w;
     range_order := range_order w; trace := t |}.

Definition with_files (w : World) (f : gmap string string) : World :=
  {| configFile := configFile w; files := f;
     read_error := read_error w; mkdir_error := mkdir_error w;
     write_error := write_error w; server := server w;
     range_order := range_order w; trace := trace w |}.

(** ** The state monad of effects *)

Definition M (A : Type) : Type := World -> A * World.

Definition ret {A} (a : A) : M A := fun w => (a, w).

Definition bind {A B} (m : M A) (k : A -> M B) : M B :=
  fun w => let (a, w') := m w in k a w'.

Notation "'let*' x ':=' m 'in' k" := (bind m (fun x => k))
  (at level 10, x name, m at level 100, k at level 200).
Notation "m ';;' k" := (bind m (fun _ => k))
  (at level 100, k at level 200, right associativity).

Definition emit (e : Event) : M unit :=
  fun w => (tt, with_trace w (trace w ++ [e])).

Definition get {A} (f : World -> A) : M A := fun w => (f w, w).

Definition exec {A} (m : M A) (w : World) : World := snd (m w).
Definition eval {A} (m : M A) (w : World) : A := fst (m w).

(** [for _, x := range xs { body(x) }] *)
Fixpoint for_each {A} (body : A -> M unit) (xs : list A) : M unit :=
  match xs with
  | [] => ret tt
  | x :: xs' => body x ;; for_each body xs'
  end.

(** The events a computation adds to the trace of [w]. *)
Definition emitted {A} (m : M A) (w : World) : list Event :=
  drop (length (trace w)) (trace (exec m w)).

(** *** Operating system and network *)

Module os.

(** [_, err := os.Stat(path); os.IsNotExist(err)]: true when there is no
    file at [path] and nothing else is wrong with the path.  A path that
    cannot be reached for another reason (a component that is not a
    directory, a directory that may not be searched) makes [os.Stat] fail
    with an error that is not "does not exist", file or no file. *)
Definition StatNotExist (path : string) : M bool :=
  emit (EvStat path) ;;
  let* fs := get files in
  let* failing := get read_error in
  ret (bool_decide (fs !! path = None /\ failing path = None)).

(** [os.ReadFile(path)] *)
Definition ReadFile (path : string) : M (result string) :=
  emit (EvReadFile path) ;;
  let* fs := get files in
  let* failing := get read_error in
  ret (match fs !! path, failing path with
       | Some data, None => Ok data
       | Some _, Some cause => Err cause
       | None, Some cause => Err cause
       | None, None =>
           Err ("open " +:+ path +:+ ": no such file or directory")
       end).

(** [os.MkdirAll(path, 0755)] *)
Definition MkdirAll (path : string) : M (option string) :=
  emit (EvMkdirAll path) ;;
  let* failing := get mkdir_error in
  ret (failing path).

(** [os.WriteFile(path, data, 0644)]: the file is created or truncated
    and holds [data] afterwards. *)
Definition WriteFile (path data : string) : M (option string) :=
  emit (EvWriteFile path data) ;;
  let* failing := get write_error in
  match failing path with
  | Some cause => ret (Some cause)
  | None => fun w => (None, with_files w (<[path := data]> (files w)))
  end.

End os.

Module http.

(** [client.Do(req)] for a request built by [http.NewRequest].  The
    event is the call: the client may follow redirects on its own, and
    the answer is the one it ends with. *)
Definition Do (method url : string) (headers : list (string * string))
  : M RoundTrip :=
  emit (EvHttp method url headers) ;;
  let* srv := get server in
  ret (srv url).

End http.

(** ** ui.go *)

Definition esc (code : string) : string := String "027"%char code.
Definition nl : string := String "010"%char EmptyString.

Definition colorReset : string := esc "[0m".
Definition colorFgDefault : string := esc "[38;5;250m".
Definition colorRedFg : string := esc "[38;5;167m".
Definition colorGreenFg : string := esc "[38;5;142m".
Definition colorYellowFg : string := esc "[38;5;214m".
Definition colorBlueFg : string := esc "[38;5;109m".
Definition colorMagentaFg : string := esc "[38;5;175m".
Definition colorCyanFg : string := esc "[38;5;108m".

(** [Colorize(text, colorCode)] *)
Definition Colorize (text colorCode : string) : string :=
  colorCode +:+ text +:+ colorFgDefault.

(** The print functions take the message [fmt.Sprintf] has already built. *)
Definition PrintError (message : string) : M unit :=
  emit (EvStderr (colorRedFg +:+ "Error: " +:+ message +:+ colorReset +:+ nl)).

Definition PrintSuccess (message : string) : M unit :=
  emit (EvStdout (colorGreenFg +:+ "Success: " +:+ message +:+ colorReset +:+ nl)).

Definition PrintInfo (message : string) : M unit :=
  emit (EvStdout (colorYellowFg +:+ "Info: " +:+ message +:+ colorReset +:+ nl)).

Definition PrintMessage (message : string) : M unit :=
  emit (EvStdout (colorFgDefault +:+ message +:+ colorReset +:+ nl)).

(** [log.Printf]: the line without its time stamp. *)
Definition log_Printf (message : string) : M unit := emit (EvLog message).

Section Program.

Context {lib : GoLib}.

(** ** The GitHub checker *)

(** [getLatestVersionGitHubImpl(appIdentifier, apiBaseURL)] *)
Definition getLatestVersionGitHubImpl (appIdentifier apiBaseURL : string)
  : M (result string) :=
  if negb (GoString.Contains appIdentifier "/") then
    ret (Err ("invalid application identifier: expected 'owner/repo', got '"
              +:+ appIdentifier +:+ "'"))
  else
    let baseURL :=
      if negb (GoString.eq apiBaseURL "") then apiBaseURL
      else "https://api.github.com" in
    let url := baseURL +:+ "/repos/" +:+ appIdentifier +:+ "/releases/latest" in
    match http_NewRequest "GET" url with
    | Some err =>
        ret (Err ("internal error creating request for " +:+ appIdentifier
                  +:+ ": " +:+ err))
    | None =>
        let headers := [("User-Agent", "ShouldUpdateApp/1.0");
                        ("Accept", "application/vnd.github.v3+json")] in
        let* resp := http.Do "GET" url headers in
        match resp with
        | TransportError err =>
            ret (Err ("network error fetching release info for "
                      +:+ appIdentifier +:+ " from " +:+ url +:+ ": " +:+ err))
        | Response StatusCode body =>
            if negb (StatusCode =? 200)%Z then
              let errorMsg :=
                "GitHub API error for " +:+ appIdentifier +:+ " (status "
                +:+ GoString.itoa StatusCode +:+ ")" in
              let fallback := " (URL: " +:+ url +:+ ")" in
              let errorMsg :=
                errorMsg +:+
                match json_decode_error body with
                | Ok ghError =>
                    if negb (GoString.eq (Message ghError) "") then
                      ": " +:+ Message ghError +:+
                      (if negb (GoString.eq (DocumentationURL ghError) "")
                       then " (see " +:+ DocumentationURL ghError +:+ ")"
                       else "")
                    else fallback
                | Err _ => fallback
                end in
              ret (Err errorMsg)
            else
              match json_decode_release body with
              | Err err =>
                  ret (Err ("error decoding JSON response for "
                            +:+ appIdentifier +:+ " from " +:+ url
                            +:+ ": " +:+ err))
              | Ok releaseInfo =>
                  if GoString.eq (TagName releaseInfo) "" then
                    ret (Err ("no version tag (tag_name) found in the latest release for "
                              +:+ appIdentifier +:+ " (URL: " +:+ url +:+ ")"))
                  else
                    let tagName := GoString.TrimPrefix (TagName releaseInfo) "v" in
                    ret (Ok tagName)
              end
        end
    end.

(** ** config.go *)

(** [loadConfig()] *)
Definition loadConfig : M (result Config) :=
  let* path := get configFile in
  let* missing := os.StatNotExist path in
  if missing then
    log_Printf ("Info: Config file '" +:+ path
                +:+ "' not found. A new one will be created upon adding an application.") ;;
    ret (Ok (∅ : Config))
  else
    let* data := os.ReadFile path in
    match data with
    | Err err =>
        log_Printf ("Debug: Error reading config file " +:+ path +:+ ": " +:+ err) ;;
        ret (Err ("could not read config file '" +:+ path +:+ "': " +:+ err))
    | Ok data =>
        match toml_Unmarshal data with
        | Err err =>
            log_Printf ("Debug: Error unmarshalling TOML from " +:+ path
                        +:+ ": " +:+ err) ;;
            ret (Err ("could not parse config file '" +:+ path
                      +:+ "' (TOML format error): " +:+ err))
        | Ok config => ret (Ok config)
        end
    end.

(** [saveConfig(config)]: [None] is the [nil] error. *)
Definition saveConfig (config : Config) : M (option string) :=
  let* path := get configFile in
  match toml_Marshal config with
  | Err err =>
      log_Printf ("Debug: Error marshalling config to TOML: " +:+ err) ;;
      ret (Some ("could not format configuration for saving: " +:+ err))
  | Ok data =>
      let dirPath := filepath_Dir path in
      let* err := os.MkdirAll dirPath in
      match err with
      | Some err =>
          log_Printf ("Debug: Error creating directory structure " +:+ dirPath
                      +:+ ": " +:+ err) ;;
          ret (Some ("could not create config directory '" +:+ dirPath
                     +:+ "': " +:+ err))
      | None =>
          let* err := os.WriteFile path data in
          match err with
          | Some err =>
              log_Printf ("Debug: Error writing config to file " +:+ path
                          +:+ ": " +:+ err) ;;
              ret (Some ("could not write configuration to file '" +:+ path
                         +:+ "': " +:+ err))
          | None => ret None
          end
      end
  end.

End Program.

(** ** main.go *)

(** The three verdicts of the check flow. *)
Inductive Verdict := UpToDate | UpdateAvailable | VersionDiscrepancy.

Definition verdict_label (v : Verdict) : string :=
  match v with
  | UpToDate => "Up to date"
  | UpdateAvailable => "Update Available!"
  | VersionDiscrepancy => "Version discrepancy"
  end.

Definition verdict_color (v : Verdict) : string :=
  match v with
  | UpToDate => colorGreenFg
  | UpdateAvailable => colorRedFg
  | VersionDiscrepancy => colorYellowFg
  end.

(** [fmt.Printf("%s Current: %s, Latest: %s (%s)%s\n", colorFgDefault,
    Colorize(currentVersion, colorCyanFg), Colorize(latestVersion, c),
    Colorize(label, c), colorReset)], the format the three branches of
    [checkAppVersion] share. *)
Definition verdictLine (currentVersion latestVersion c label : string) : string :=
  colorFgDefault +:+ " Current: " +:+ Colorize currentVersion colorCyanFg
  +:+ ", Latest: " +:+ Colorize latestVersion c
  +:+ " (" +:+ Colorize label c +:+ ")" +:+ colorReset +:+ nl.

(** The line that reports verdict [v]. *)
Definition reports (v : Verdict) (currentVersion latestVersion : string) : Event :=
  EvStdout (verdictLine currentVersion latestVersion
                        (verdict_color v) (verdict_label v)).

(** The [PrintInfo] line of an identifier that is skipped. *)
Definition skipLine (appName : string) : string :=
  colorYellowFg +:+ "Info: " +:+
  ("Skipping " +:+ Colorize appName colorMagentaFg
   +:+ ": Not in 'owner/repo' format. Cannot check for updates via GitHub.")
  +:+ colorReset +:+ nl.

(** The [fmt.Printf] that starts the check of an identifier. *)
Definition checkingLine (appName : string) : string :=
  colorFgDefault +:+ "Checking " +:+ Colorize appName colorYellowFg
  +:+ "... " +:+ colorReset.

Section Commands.

Context {lib : GoLib}.

(** The package variable [getLatestVersion]; [main] leaves it bound to
    [getLatestVersionGitHubImpl], the tests rebind it. *)
Variable getLatestVersion : string -> string -> M (result string).

(** [checkAppVersion(appName, currentVersion)] *)
Definition checkAppVersion (appName currentVersion : string) : M unit :=
  if negb (GoString.Contains appName "/") then
    PrintInfo ("Skipping " +:+ Colorize appName colorMagentaFg
               +:+ ": Not in 'owner/repo' format. Cannot check for updates via GitHub.")
  else
    emit (EvStdout (colorFgDefault +:+ "Checking "
                    +:+ Colorize appName colorYellowFg +:+ "... "
                    +:+ colorReset)) ;;
    let* r := getLatestVersion appName "" in
    match r with
    | Err err =>
        emit (EvStdout nl) ;;
        PrintError ("Failed to check " +:+ Colorize appName colorMagentaFg
                    +:+ ": " +:+ err)
    | Ok latestVersion =>
        if GoString.eq latestVersion currentVersion then
          emit (EvStdout (verdictLine currentVersion latestVersion
                                      colorGreenFg "Up to date"))
        else
          let isUpgrade := GoString.gt latestVersion currentVersion in
          if isUpgrade then
            emit (EvStdout (verdictLine currentVersion latestVersion
                                        colorRedFg "Update Available!"))
          else
            emit (EvStdout (verdictLine currentVersion latestVersion
                                        colorYellowFg "Version discrepancy"))
    end.

(** [handleCheckCmd(specificApp)] *)
Definition handleCheckCmd (specificApp : string) : M unit :=
  let* r := loadConfig in
  match r with
  | Err err => PrintError ("Could not load configuration: " +:+ err)
  | Ok config =>
      if Nat.eqb (size config) 0 then
        PrintInfo "No applications currently managed. Use 'add' command to add some."
      else if negb (GoString.eq specificApp "") then
        match config !! specificApp with
        | None =>
            PrintError ("Application '" +:+ Colorize specificApp colorYellowFg
                        +:+ "' not found in your managed list.")
        | Some currentVersion => checkAppVersion specificApp currentVersion
        end
      else
        PrintMessage (colorBlueFg
                      +:+ "Checking all managed applications for updates..."
                      +:+ colorReset) ;;
        let* order := get range_order in
        for_each (fun kv => checkAppVersion (fst kv) (snd kv)) (order config)
  end.

(** [handleAddCmd(appName, appVersion)] *)
Definition handleAddCmd (appName appVersion : string) : M unit :=
  let* r := loadConfig in
  match r with
  | Err err => PrintError ("Could not load configuration: " +:+ err)
  | Ok config =>
      let old := config !! appName in
      let config := <[appName := appVersion]> config in
      let* err := saveConfig config in
      match err with
      | Some err =>
          PrintError ("Could not save configuration for '" +:+ appName
                      +:+ "': " +:+ err)
      | None =>
          match old with
          | Some oldVersion =>
              PrintSuccess ("Application '" +:+ Colorize appName colorYellowFg
                            +:+ "' updated from version '"
                            +:+ Colorize oldVersion colorMagentaFg
                            +:+ "' to '" +:+ Colorize appVersion colorCyanFg
                            +:+ "'.")
          | None =>
              PrintSuccess ("Application '" +:+ Colorize appName colorYellowFg
                            +:+ "' added with version '"
                            +:+ Colorize appVersion colorCyanFg +:+ "'.")
          end
      end
  end.

(** What [handleRemoveCmd] prints once [saveConfig] has returned. *)
Definition removeReport (appName : string) (err : option string) : M unit :=
  match err with
  | Some err =>
      PrintError ("Could not save configuration after removing '" +:+ appName
                  +:+ "': " +:+ err)
  | None =>
      PrintSuccess ("Application '" +:+ Colorize appName colorYellowFg
                    +:+ "' removed.")
  end.

(** [handleRemoveCmd(appName)] *)
Definition handleRemoveCmd (appName : string) : M unit :=
  let* r := loadConfig in
  match r with
  | Err err => PrintError ("Could not load configuration: " +:+ err)
  | Ok config =>
      match config !! appName with
      | None =>
          PrintInfo ("Application '" +:+ Colorize appName colorMagentaFg
                     +:+ "' not found in configuration. Nothing to remove.")
      | Some _ =>
          let config := delete appName config in
          let* err := saveConfig config in
          removeReport appName err
      end
  end.

End Commands.

(** ** ui.go and main.go, the rest *)

Definition colorBold : string := esc "[1m".
Definition tab : string := String "009"%char EmptyString.
Definition dquote : string := String "034"%char EmptyString.

(** [PrintHeader(format, a...)] *)
Definition PrintHeader (message : string) : M unit :=
  emit (EvStdout (colorBold +:+ colorBlueFg +:+ "== " +:+ message +:+ " =="
                  +:+ colorReset +:+ nl)).

(** [PrintUsageMessage(format, a...)] *)
Definition PrintUsageMessage (message : string) : M unit :=
  emit (EvStderr (colorFgDefault +:+ message +:+ colorReset +:+ nl)).

(** [!(a > b)], the order [sort.Strings] sorts by. *)
Definition not_above (a b : string) : Prop := GoString.gt a b = false.

Global Instance not_above_dec : RelDecision not_above.
Proof. intros a b. unfold not_above. apply _. Defined.

(** [sort.Strings(x)]: [x] in increasing byte-wise order.  Equal strings
    are the same string, so the result does not depend on the sorting
    algorithm. *)
Definition sort_Strings (x : list string) : list string :=
  merge_sort not_above x.

(** The [PrintMessage] line of one entry of the listing. *)
Definition listLine (appName appVersion : string) : string :=
  colorFgDefault +:+
  ("  - Application: " +:+ Colorize appName colorYellowFg
   +:+ ", Version: " +:+ Colorize appVersion colorCyanFg)
  +:+ colorReset +:+ nl.

(** [printOverallUsage()], with [os.Args[0]] as [arg0]. *)
Definition printOverallUsage (arg0 : string) : M unit :=
  PrintUsageMessage ("Usage: " +:+ arg0 +:+ " <command> [arguments]") ;;
  PrintUsageMessage "Commands:" ;;
  PrintMessage ("  " +:+ Colorize "add" colorGreenFg +:+ " "
                +:+ Colorize "<name> <version>" colorFgDefault +:+ tab
                +:+ "Add a new application to monitor") ;;
  PrintMessage ("  " +:+ Colorize "remove" colorRedFg +:+ " "
                +:+ Colorize "<name>" colorFgDefault +:+ tab
                +:+ "Remove an application from monitoring") ;;
  PrintMessage ("  " +:+ Colorize "list" colorBlueFg +:+ tab +:+ tab +:+ tab
                +:+ "List all monitored applications") ;;
  PrintMessage ("  " +:+ Colorize "check" colorYellowFg +:+ " "
                +:+ Colorize "[<name>]" colorFgDefault +:+ tab
                +:+ "Check for updates, optionally for a specific app") ;;
  PrintUsageMessage (nl +:+ "Use " +:+ dquote +:+ arg0 +:+ " <command> --help"
                     +:+ dquote
                     +:+ " for more information about a command (not yet implemented).").

(** The [Usage] functions of the four flag sets. *)
Definition addUsage (arg0 : string) : M unit :=
  PrintUsageMessage ("Usage: " +:+ arg0 +:+ " add <application_name> <version>") ;;
  PrintUsageMessage ("Example: " +:+ Colorize arg0 colorCyanFg +:+ " add myapp 1.0.2").

Definition removeUsage (arg0 : string) : M unit :=
  PrintUsageMessage ("Usage: " +:+ arg0 +:+ " remove <application_name>") ;;
  PrintUsageMessage ("Example: " +:+ Colorize arg0 colorCyanFg +:+ " remove myapp").

Definition listUsage (arg0 : string) : M unit :=
  PrintUsageMessage ("Usage: " +:+ arg0 +:+ " list").

Definition checkUsage (arg0 : string) : M unit :=
  PrintUsageMessage ("Usage: " +:+ arg0 +:+ " check [<application_name>]") ;;
  PrintUsageMessage ("Example: " +:+ Colorize arg0 colorCyanFg +:+ " check myapp") ;;
  PrintUsageMessage ("Example: " +:+ Colorize arg0 colorCyanFg +:+ " check").

(** What [cmd.Parse(os.Args[2:])] leaves behind under [flag.ExitOnError]:
    the positional arguments [cmd.Args()], or the end of the process. *)
Inductive Parsed :=
| Positional (args : list string)
| Exited (code : Z).

Section Dispatch.

Context {lib : GoLib}.

(** The package variable [getLatestVersion]. *)
Variable getLatestVersion : string -> string -> M (result string).

(** [cmd.Parse(arguments)] of package flag, for a flag set without flags
    whose [Usage] is the first argument. *)
Variable flag_Parse : M unit -> list string -> M Parsed.

(** [handleListCmd()] *)
Definition handleListCmd : M unit :=
  let* r := loadConfig in
  match r with
  | Err err => PrintError ("Could not load configuration: " +:+ err)
  | Ok config =>
      if Nat.eqb (size config) 0 then
        PrintInfo "No applications currently managed. Use the 'add' command to add some."
      else
        PrintHeader "Managed Applications" ;;
        let* order := get range_order in
        let sortedAppNames := sort_Strings (order config).*1 in
        for_each (fun appName =>
                    let appVersion := default EmptyString (config !! appName) in
                    PrintMessage ("  - Application: "
                                  +:+ Colorize appName colorYellowFg
                                  +:+ ", Version: "
                                  +:+ Colorize appVersion colorCyanFg))
                 sortedAppNames
  end.

(** [main()], with [os.Args] as [arg0 :: args]; the result is the exit
    status of the process. *)
Definition main (arg0 : string) (args : list string) : M Z :=
  match args with
  | [] => printOverallUsage arg0 ;; ret 1%Z
  | command :: rest =>
      if GoString.eq command "add" then
        let* parsed := flag_Parse (addUsage arg0) rest in
        match parsed with
        | Exited code => ret code
        | Positional positional =>
            if Nat.ltb (length positional) 2 then
              PrintError "Missing application name and/or version for 'add' command." ;;
              addUsage arg0 ;;
              ret 1%Z
            else
              let appName := nth 0 positional EmptyString in
              let appVersion := nth 1 positional EmptyString in
              handleAddCmd appName appVersion ;;
              ret 0%Z
        end
      else if GoString.eq command "remove" then
        let* parsed := flag_Parse (removeUsage arg0) rest in
        match parsed with
        | Exited code => ret code
        | Positional positional =>
            if Nat.ltb (length positional) 1 then
              PrintError "Missing application name for 'remove' command." ;;
              removeUsage arg0 ;;
              ret 1%Z
            else
              let appName := nth 0 positional EmptyString in
              handleRemoveCmd appName ;;
              ret 0%Z
        end
      else if GoString.eq command "list" then
        let* parsed := flag_Parse (listUsage arg0) rest in
        match parsed with
        | Exited code => ret code
        | Positional positional =>
            if Nat.ltb 0 (length positional) then
              PrintError "'list' command does not take any arguments." ;;
              listUsage arg0 ;;
              ret 1%Z
            else
              handleListCmd ;;
              ret 0%Z
        end
      else if GoString.eq command "check" then
        let* parsed := flag_Parse (checkUsage arg0) rest in
        match parsed with
        | Exited code => ret code
        | Positional positional =>
            if Nat.ltb 1 (length positional) then
              PrintError "'check' command accepts at most one application name." ;;
              checkUsage arg0 ;;
              ret 1%Z
            else
              let specificApp :=
                if Nat.eqb (length positional) 1
                then nth 0 positional EmptyString else EmptyString in
              handleCheckCmd getLatestVersion specificApp ;;
              ret 0%Z
        end
      else
        PrintError ("Unknown command '" +:+ command +:+ "'.") ;;
        printOverallUsage arg0 ;;
        ret 1%Z
  end.

End Dispatch.

(** ** A small instance of the imported packages

    Enough JSON, TOML and path handling to run the program on concrete
    inputs: flat objects and tables whose keys and values are quoted
    strings, with backslash escapes. *)

Module Sample.

Definition dq : ascii := "034"%char.
Definition bs : ascii := "092"%char.

Definition quoted (s : string) : string :=
  String dq s +:+ String dq EmptyString.

Definition is_space (c : ascii) : bool :=
  Ascii.eqb c " " || Ascii.eqb c "009" || Ascii.eqb c "010" || Ascii.eqb c "013".

Fixpoint skip_space (s : string) : string :=
  match s with
  | String c s' => if is_space c then skip_space s' else s
  | EmptyString => s
  end.

(** The text up to the closing quote, and what follows it. *)
Fixpoint read_chars (s : string) : option (string * string) :=
  match s with
  | EmptyString => None
  | String c s' =>
      if Ascii.eqb c dq then Some (EmptyString, s')
      else if Ascii.eqb c bs then
        match s' with
        | EmptyString => None
        | String e s'' =>
            match read_chars s'' with
            | Some (t, r) => Some (String e t, r)
            | None => None
            end
        end
      else
        match read_chars s' with
        | Some (t, r) => Some (String c t, r)
        | None => None
        end
  end.

Definition read_quoted (s : string) : option (string * string) :=
  match s with
  | String c s' => if Ascii.eqb c dq then read_chars s' else None
  | EmptyString => None
  end.

Fixpoint escape (s : string) : string :=
  match s with
  | EmptyString => EmptyString
  | String c s' =>
      if Ascii.eqb c dq || Ascii.eqb c bs then String bs (String c (escape s'))
      else String c (escape s')
  end.

(** [key sep value] pairs; [fin] closes the sequence and [delim], when
    there is one, must stand between two pairs. *)
Fixpoint pairs (fuel : nat) (sep : ascii) (delim fin : option ascii) (s : string)
  : option (list (string * string)) :=
  match fuel with
  | O => None
  | S fuel' =>
      match skip_space s, fin with
      | EmptyString, None => Some []
      | s1, _ =>
          match read_quoted s1 with
          | None => None
          | Some (k, r) =>
              match skip_space r with
              | String c r1 =>
                  if Ascii.eqb c sep then
                    match read_quoted (skip_space r1) with
                    | None => None
                    | Some (v, r2) =>
                        let more (rest : string) :=
                          option_map (cons (k, v)) (pairs fuel' sep delim fin rest) in
                        match skip_space r2, delim, fin with
                        | String d r3, Some dl, Some f =>
                            if Ascii.eqb d dl then more r3
                            else if Ascii.eqb d f then
                              match skip_space r3 with
                              | EmptyString => Some [(k, v)]
                              | _ => None
                              end
                            else None
                        | rest, None, None => more rest
                        | _, _, _ => None
                        end
                    end
                  else None
              | EmptyString => None
              end
          end
      end
  end.

(** A JSON object of string members. *)
Definition json_object (s : string) : option (list (string * string)) :=
  match skip_space s with
  | String "{" r =>
      match skip_space r with
      | String "}" r' =>
          match skip_space r' with EmptyString => Some [] | _ => None end
      | _ => pairs (String.length s) ":" (Some ","%char) (Some "}"%char) r
      end
  | _ => None
  end.

Fixpoint field (name : string) (l : list (string * string)) : string :=
  match l with
  | [] => EmptyString
  | (k, v) :: l' => if String.eqb k name then v else field name l'
  end.

Definition decode_release (body : string) : result GitHubReleaseInfo :=
  match json_object body with
  | Some l => Ok {| TagName := field "tag_name" l; Name := field "name" l;
                    Body := field "body" l; HTMLURL := field "html_url" l |}
  | None => Err "unexpected EOF"
  end.

Definition decode_error (body : string) : result GitHubError :=
  match json_object body with
  | Some l => Ok {| Message := field "message" l;
                    DocumentationURL := field "documentation_url" l |}
  | None => Err "invalid character"
  end.

(** One [key = value] line per entry. *)
Definition marshal (config : Config) : result string :=
  Ok (foldr (fun kv out =>
               quoted (escape (fst kv)) +:+ " = " +:+ quoted (escape (snd kv))
               +:+ nl +:+ out)
            EmptyString (map_to_list config)).

Definition in_range (lo hi : N) (c : ascii) : bool :=
  N.leb lo (N_of_ascii c) && N.leb (N_of_ascii c) hi.

(** The text is UTF-8, as a TOML document must be: no stray
    continuation byte, no truncated or overlong sequence, no surrogate,
    nothing above U+10FFFF. *)
Fixpoint utf8_valid (s : string) : bool :=
  match s with
  | EmptyString => true
  | String c s1 =>
      if in_range 0 127 c then utf8_valid s1
      else if in_range 194 223 c then
        match s1 with
        | String c1 s2 => in_range 128 191 c1 && utf8_valid s2
        | _ => false
        end
      else if in_range 224 239 c then
        match s1 with
        | String c1 (String c2 s3) =>
            (if in_range 224 224 c then in_range 160 191 c1
             else if in_range 237 237 c then in_range 128 159 c1
             else in_range 128 191 c1)
            && in_range 128 191 c2 && utf8_valid s3
        | _ => false
        end
      else if in_range 240 244 c then
        match s1 with
        | String c1 (String c2 (String c3 s4)) =>
            (if in_range 240 240 c then in_range 144 191 c1
             else if in_range 244 244 c then in_range 128 143 c1
             else in_range 128 191 c1)
            && in_range 128 191 c2 && in_range 128 191 c3 && utf8_valid s4
        | _ => false
        end
      else false
  end.

(** The decoder refuses a document that is not UTF-8; the encoder writes
    the bytes of a string as they are. *)
Definition unmarshal (data : string) : result Config :=
  if utf8_valid data then
    match pairs (S (String.length data)) "=" None None data with
    | Some l => Ok (list_to_map l)
    | None => Err "toml: expected key = value"
    end
  else Err "toml: invalid UTF-8".

Fixpoint dir_of (path : string) : option string :=
  match path with
  | EmptyString => None
  | String c rest =>
      match dir_of rest with
      | Some d => Some (String c d)
      | None => if Ascii.eqb c "/" then Some EmptyString else None
      end
  end.

Definition Dir (path : string) : string :=
  match dir_of path with
  | Some EmptyString => "/"
  | Some d => d
  | None => "."
  end.

(** [net/url] refuses control characters. *)
Fixpoint control_free (s : string) : bool :=
  match s with
  | EmptyString => true
  | String c s' =>
      negb (N.ltb (N_of_ascii c) 32) && negb (N.eqb (N_of_ascii c) 127)
      && control_free s'
  end.

Definition NewRequest (method url : string) : option string :=
  if control_free url then None
  else Some ("parse " +:+ url +:+ ": net/url: invalid control character in URL").

#[global] Instance lib : GoLib := {|
  json_decode_release := decode_release;
  json_decode_error := decode_error;
  http_NewRequest := NewRequest;
  toml_Marshal := marshal;
  toml_Unmarshal := unmarshal;
  filepath_Dir := Dir
|}.

(** A machine with no files, on which nothing fails, in front of a
    server that answers every request with [reply]. *)
Definition machine (path : string) (reply : string -> RoundTrip) : World :=
  {| configFile := path; files := ∅;
     read_error := fun _ => None; mkdir_error := fun _ => None;
     write_error := fun _ => None; server := reply;
     range_order := map_to_list; trace := [] |}.

Definition error_body (message url : string) : string :=
  "{" +:+ quoted "message" +:+ ": " +:+ quoted message +:+ ", "
  +:+ quoted "documentation_url" +:+ ": " +:+ quoted url +:+ "}".



(** The same machine with one file on it. *)
Definition machine_with (path data : string) (reply : string -> RoundTrip)
  : World :=
  with_files (machine path reply) {[ path := data ]}.

(** The store of the batch test: two identifiers of the [owner/repo]
    form and one without a separator. *)
Definition batch : Config :=
  <["owner/appA" := "1.0.0"]>
    (<["owner/appB" := "0.5.0"]> (<["invalidAppC" := "2.0.0"]> ∅)).

Definition batch_file : string :=
  match marshal batch with Ok data => data | Err _ => EmptyString end.

Definition tag_body (tag : string) : string :=
  "{" +:+ quoted "tag_name" +:+ ": " +:+ quoted tag +:+ ", "
  +:+ quoted "name" +:+ ": " +:+ quoted "Release" +:+ "}" +:+ nl.

(** A server that knows [owner/appA] only. *)
Definition batch_server (url : string) : RoundTrip :=
  if String.eqb url "https://api.github.com/repos/owner/appA/releases/latest"
  then Response 200 (tag_body "v1.0.0")
  else Response 404 "Not Found".

Definition batch_machine : World :=
  machine_with "versions.toml" batch_file batch_server.

(** A store with a version that ends in the byte 0xff. *)
Definition not_utf8 : Config :=
  {[ "owner/app" := "1.0" +:+ String "255"%char EmptyString ]}.

(** A machine on which the path of the store leads through something
    that is not a directory: there is no file, and the path cannot even
    be looked at. *)
Definition unreachable_machine : World :=
  {| configFile := "/home/u/.config/shouldupdate/versions.toml"; files := ∅;
     read_error := fun _ => Some "not a directory";
     mkdir_error := fun _ => Some "not a directory";
     write_error := fun _ => Some "not a directory";
     server := fun _ => TransportError "unused";
     range_order := map_to_list; trace := [] |}.

(** The body of the malformed-JSON test: the closing brace is missing. *)
Definition truncated_body : string :=
  "{" +:+ quoted "tag_name" +:+ ": " +:+ quoted "v1.0" +:+ nl.

(** The body of the missing-tag test. *)
Definition untagged_body : string :=
  "{" +:+ quoted "name" +:+ ": " +:+ quoted "Release without tag" +:+ "}" +:+ nl.

(** Package flag for a flag set without flags: a help flag exits with 0
    after the usage, any other flag with 2, [--] ends the flags and the
    rest is positional. *)
Definition flagParse (usage : M unit) (arguments : list string) : M Parsed :=
  match arguments with
  | [] => ret (Positional [])
  | first :: rest =>
      if String.eqb first "--" then ret (Positional rest)
      else if String.eqb first "-" then ret (Positional arguments)
      else if GoString.HasPrefix first "-" then
        if String.eqb first "-h" || String.eqb first "-help"
           || String.eqb first "--h" || String.eqb first "--help"
        then usage ;; ret (Exited 0)
        else
          emit (EvStderr ("flag provided but not defined: " +:+ first +:+ nl)) ;;
          usage ;; ret (Exited 2)
      else ret (Positional arguments)
  end.

End Sample.

(** ** Vocabulary of the statements *)

(** [<apiBase>/repos/<identifier>/releases/latest], with the public API
    root when no base is given. *)
Definition releaseURL (identifier apiBase : string) : string :=
  match apiBase with
  | EmptyString => "https://api.github.com"
  | _ => apiBase
  end +:+ "/repos/" +:+ identifier +:+ "/releases/latest".

(** The one request of a lookup. *)
Definition releaseRequest (identifier apiBase : string) : Event :=
  EvHttp "GET" (releaseURL identifier apiBase)
         [("User-Agent", "ShouldUpdateApp/1.0");
          ("Accept", "application/vnd.github.v3+json")].

(** The validation failure of an identifier. *)
Definition invalidIdentifier (identifier : string) : string :=
  "invalid application identifier: expected 'owner/repo', got '"
  +:+ identifier +:+ "'".

(** The start of every API error. *)
Definition apiErrorHead (identifier : string) (status : Z) : string :=
  "GitHub API error for " +:+ identifier +:+ " (status "
  +:+ GoString.itoa status +:+ ")".

Definition is_http (e : Event) : Prop :=
  match e with EvHttp _ _ _ => True | _ => False end.

Definition is_write (e : Event) : Prop :=
  match e with EvMkdirAll _ | EvWriteFile _ _ => True | _ => False end.

(** The log line of [loadConfig] for a file that is not there. *)
Definition notFoundLog (path : string) : Event :=
  EvLog ("Info: Config file '" +:+ path
         +:+ "' not found. A new one will be created upon adding an application.").

(** What [loadConfig] may do: look at the file, read it, write to the log. *)
Definition is_load_event (e : Event) : Prop :=
  match e with EvStat _ | EvReadFile _ | EvLog _ => True | _ => False end.

(** The stand-in of the tests for the lookup: the same answer every time. *)
Definition fixedLookup (answer : result string)
  : string -> string -> M (result string) :=
  fun _ _ => ret answer.

(** The line that opens the check of an identifier: either of the two
    first prints of [checkAppVersion]. *)
Definition is_start (appName : string) (e : Event) : Prop :=
  e = EvStdout (skipLine appName) \/ e = EvStdout (checkingLine appName).

Global Instance Event_eq_dec : EqDecision Event.
Proof. solve_decision. Defined.

Global Instance is_start_dec appName e : Decision (is_start appName e).
Proof. unfold is_start. apply _. Defined.

(** How many times the check of [appName] is opened in a trace. *)
Definition starts (appName : string) (evs : list Event) : nat :=
  length (filter (is_start appName) evs).

(** A lookup that only talks to the network: it leaves the world as it
    is but for the requests it adds to the trace. *)
Definition network_only (lookup : string -> string -> M (result string)) : Prop :=
  forall identifier apiBase w,
  exists evs,
    exec (lookup identifier apiBase) w = with_trace w (trace w ++ evs)
    /\ Forall is_http evs.

(** The claim that an identifier with more than one [/] is turned away
    without a request. *)
Definition rejects_many_slashes `{GoLib} (identifier apiBase : string)
  (w : World) : Prop :=
  1 < slashes identifier ->
  eval (getLatestVersionGitHubImpl identifier apiBase) w
    = Err (invalidIdentifier identifier)
  /\ trace (exec (getLatestVersionGitHubImpl identifier apiBase) w) = trace w.

(** Nothing fails on the file of the store: it can be read, its
    directory can be made and it can be written. *)
Definition healthy `{GoLib} (w : World) : Prop :=
  read_error w (configFile w) = None
  /\ mkdir_error w (filepath_Dir (configFile w)) = None
  /\ write_error w (configFile w) = None.

(** The format gives the map back from its own output. *)
Definition faithful `{GoLib} (m : Config) : Prop :=
  exists data, toml_Marshal m = Ok data /\ toml_Unmarshal data = Ok m.

(** The store holds [m]: a load returns it. *)
Definition stored `{GoLib} (w : World) (m : Config) : Prop :=
  eval loadConfig w = Ok m.

(** What goes to the terminal. *)
Definition is_console (e : Event) : Prop :=
  match e with EvStdout _ | EvStderr _ => True | _ => False end.

(** How many times an event occurs in a trace. *)
Definition occurrences (e : Event) (evs : list Event) : nat :=
  length (filter (fun e' => e' = e) evs).

(** The commands [main] dispatches on. *)
Definition commands : list string := ["add"; "remove"; "list"; "check"].

(** A computation that leaves the world as it is but for events of
    kind [P] that it adds to the trace. *)
Definition only_adds {A} (P : Event -> Prop) (m : M A) : Prop :=
  forall w,
  exists evs, exec m w = with_trace w (trace w ++ evs) /\ Forall P evs.

(** A request can be sent for an identifier: it has a [/] and its
    request can be built. *)
Definition checkable `{GoLib} (identifier : string) : Prop :=
  1 <= slashes identifier
  /\ http_NewRequest "GET" (releaseURL identifier "") = None.

Global Instance checkable_dec `{GoLib} identifier : Decision (checkable identifier).
Proof. unfold checkable. apply _. Defined.

(** The [Usage] of the flag set of a command. *)
Definition usageOf (command arg0 : string) : M unit :=
  if String.eqb command "add" then addUsage arg0
  else if String.eqb command "remove" then removeUsage arg0
  else if String.eqb command "list" then listUsage arg0
  else checkUsage arg0.

(** The numbers of positional arguments a command goes on with. *)
Definition takes (command : string) (n : nat) : Prop :=
  (command = "add" /\ 2 <= n)
  \/ (command = "remove" /\ 1 <= n)
  \/ (command = "list" /\ n = 0)
  \/ (command = "check" /\ n <= 1).


(** The claim that a load gives the empty map whenever there is no file
    at the path of the store. *)
Definition missing_loads_empty `{GoLib} (w : World) : Prop :=
  files w !! configFile w = None -> eval loadConfig w = Ok ∅.

(** Verdict [v] is the one the byte-wise order gives for a recorded and
    a latest version. *)
Definition verdict_for (currentVersion latestVersion : string) (v : Verdict)
  : Prop :=
  (v = UpToDate <-> latestVersion = currentVersion)
  /\ (v = UpdateAvailable <-> lex_lt currentVersion latestVersion)
  /\ (v = VersionDiscrepancy <-> lex_lt latestVersion currentVersion).

(** The [PrintError] line of a lookup that failed. *)
Definition failedLine (appName cause : string) : string :=
  colorRedFg +:+ "Error: " +:+
  ("Failed to check " +:+ Colorize appName colorMagentaFg +:+ ": " +:+ cause)
  +:+ colorReset +:+ nl.

(** The line that opens a check of all entries. *)
Definition checkAllHeader : Event :=
  EvStdout (colorFgDefault
            +:+ (colorBlueFg +:+ "Checking all managed applications for updates..."
                 +:+ colorReset)
            +:+ colorReset +:+ nl).

(** What it is to process one entry, from world [w] to world [w']: the
    identifier is skipped with its notice; or its check is announced,
    the lookup is run on the identifier, and either the verdict of the
    returned version against the recorded one is printed, or the failure
    of the lookup is reported. *)
Inductive processed (lookup : string -> string -> M (result string))
  (appName currentVersion : string) (w : World) : World -> Prop :=
| processed_skipped :
    slashes appName = 0 ->
    processed lookup appName currentVersion w
      (with_trace w (trace w ++ [EvStdout (skipLine appName)]))
| processed_compared latestVersion w1 v :
    1 <= slashes appName ->
    lookup appName ""
      (with_trace w (trace w ++ [EvStdout (checkingLine appName)]))
    = (Ok latestVersion, w1) ->
    verdict_for currentVersion latestVersion v ->
    processed lookup appName currentVersion w
      (with_trace w1 (trace w1 ++ [reports v currentVersion latestVersion]))
| processed_failed cause w1 :
    1 <= slashes appName ->
    lookup appName ""
      (with_trace w (trace w ++ [EvStdout (checkingLine appName)]))
    = (Err cause, w1) ->
    processed lookup appName currentVersion w
      (with_trace w1 (trace w1 ++ [EvStdout nl;
                                   EvStderr (failedLine appName cause)])).

(** The entries of a list processed one after the other. *)
Inductive processed_all (lookup : string -> string -> M (result string))
  : list (string * string) -> World -> World -> Prop :=
| processed_none w : processed_all lookup [] w w
| processed_next appName currentVersion entries w w1 w2 :
    processed lookup appName currentVersion w w1 ->
    processed_all lookup entries w1 w2 ->
    processed_all lookup ((appName, currentVersion) :: entries) w w2.

(** The error of a command that got a number of arguments it does not
    take. *)
Definition countError (command : string) : string :=
  if String.eqb command "add"
  then "Missing application name and/or version for 'add' command."
  else if String.eqb command "remove"
  then "Missing application name for 'remove' command."
  else if String.eqb command "list"
  then "'list' command does not take any arguments."
  else "'check' command accepts at most one application name.".

(** * Properties *)

(** ** The program at concrete inputs *)

Example itoa_404 : GoString.itoa 404 = "404".
Proof. reflexivity. Qed.

Example gt_is_bytewise : GoString.gt "2.0.0" "10.0.0" = true.
Proof. reflexivity. Qed.

Example sample_json :
  Sample.json_object (Sample.tag_body "v1.2.3")
  = Some [("tag_name", "v1.2.3"); ("name", "Release")].
Proof. vm_compute. reflexivity. Qed.

Example sample_toml :
  Sample.unmarshal
    (match Sample.marshal (<["owner/repo" := "1.0"]> (<["b" := "x y"]> ∅)) with
     | Ok d => d | Err _ => "" end)
  = Ok (<["owner/repo" := "1.0"]> (<["b" := "x y"]> ∅)).
Proof. vm_compute. reflexivity. Qed.

(** The three tags the specification names. *)
Example lookup_v123 :
  eval (getLatestVersionGitHubImpl "owner/repo" "")
       (Sample.machine "versions.toml"
          (fun _ => Response 200 (Sample.tag_body "v1.2.3")))
  = Ok "1.2.3".
Proof. vm_compute. reflexivity. Qed.

Example lookup_200 :
  eval (getLatestVersionGitHubImpl "owner/repo" "")
       (Sample.machine "versions.toml"
          (fun _ => Response 200 (Sample.tag_body "2.0.0")))
  = Ok "2.0.0".
Proof. vm_compute. reflexivity. Qed.

Example lookup_vv1 :
  eval (getLatestVersionGitHubImpl "owner/repo" "")
       (Sample.machine "versions.toml"
          (fun _ => Response 200 (Sample.tag_body "vv1")))
  = Ok "v1".
Proof. vm_compute. reflexivity. Qed.

(** ** Strings *)

Section Strings.

Lemma HasPrefix_nil s : GoString.HasPrefix s "" = true.
Proof. by destruct s. Qed.

Lemma Contains_slash s :
  GoString.Contains s "/" = true <-> In "/"%char (bytes s).
Proof.
  induction s as [|c s IH]; simpl.
  - split; [discriminate | tauto].
  - rewrite HasPrefix_nil, orb_true_iff, IH.
    destruct (Ascii.eqb_spec c "/") as [->|Hc]; split; intros H; auto.
    + destruct H as [H|H]; [discriminate | by right].
    + destruct H as [H|H]; [congruence | by right].
Qed.

Lemma slashes_pos s : 1 <= slashes s <-> In "/"%char (bytes s).
Proof. unfold slashes. symmetry. apply (count_occ_In ascii_dec). Qed.

Lemma slashes_zero s : slashes s = 0 <-> ~ In "/"%char (bytes s).
Proof. unfold slashes. symmetry. apply (count_occ_not_In ascii_dec). Qed.

Lemma Contains_slash_false s :
  GoString.Contains s "/" = false <-> ~ In "/"%char (bytes s).
Proof.
  rewrite <- Contains_slash. destruct (GoString.Contains s "/"); split; auto;
    try discriminate. intros H; by destruct H.
Qed.

Lemma eq_true a b : GoString.eq a b = true <-> a = b.
Proof. apply String.eqb_eq. Qed.

Lemma eq_false a b : GoString.eq a b = false <-> a <> b.
Proof. apply String.eqb_neq. Qed.

Lemma N_of_ascii_inj c d : N_of_ascii c = N_of_ascii d -> c = d.
Proof.
  intros H. rewrite <- (ascii_N_embedding c), <- (ascii_N_embedding d).
  by rewrite H.
Qed.

Lemma cmp_Eq a b : GoString.cmp a b = Eq <-> a = b.
Proof.
  revert b; induction a as [|x a IH]; intros [|y b]; simpl;
    try (split; [discriminate | congruence]); [tauto|].
  destruct (N.compare_spec (N_of_ascii x) (N_of_ascii y)) as [E|L|G].
  - apply N_of_ascii_inj in E as ->. rewrite IH.
    split; [by intros -> | congruence].
  - split; [discriminate | intros [= -> _]; lia].
  - split; [discriminate | intros [= -> _]; lia].
Qed.

Lemma cmp_Lt a b : GoString.cmp a b = Lt <-> lex_lt a b.
Proof.
  revert b; induction a as [|x a IH]; intros [|y b]; simpl.
  - split; [discriminate | inversion 1].
  - split; [constructor | done].
  - split; [discriminate | inversion 1].
  - destruct (N.compare_spec (N_of_ascii x) (N_of_ascii y)) as [E|L|G].
    + apply N_of_ascii_inj in E as ->. rewrite IH.
      split; [by constructor | inversion 1; subst; [lia | done]].
    + split; [by constructor | done].
    + split; [discriminate | inversion 1; subst; lia].
Qed.

Lemma cmp_Gt a b : GoString.cmp a b = Gt <-> lex_lt b a.
Proof.
  revert b; induction a as [|x a IH]; intros [|y b]; simpl.
  - split; [discriminate | inversion 1].
  - split; [discriminate | inversion 1].
  - split; [constructor | done].
  - destruct (N.compare_spec (N_of_ascii x) (N_of_ascii y)) as [E|L|G].
    + apply N_of_ascii_inj in E as ->. rewrite IH.
      split; [by constructor | inversion 1; subst; [lia | done]].
    + split; [discriminate | inversion 1; subst; lia].
    + split; [by constructor | done].
Qed.

Lemma gt_true a b : GoString.gt a b = true <-> lex_lt b a.
Proof.
  unfold GoString.gt. rewrite <- cmp_Gt.
  destruct (GoString.cmp a b); split; congruence.
Qed.

Lemma lex_lt_irrefl a : ~ lex_lt a a.
Proof. rewrite <- cmp_Lt. by rewrite (proj2 (cmp_Eq a a) eq_refl). Qed.

Lemma lex_lt_asym a b : lex_lt a b -> ~ lex_lt b a.
Proof. rewrite <- cmp_Lt, <- cmp_Gt. congruence. Qed.

Lemma TrimPrefix_v rest : GoString.TrimPrefix (String "v" rest) "v" = rest.
Proof. unfold GoString.TrimPrefix. simpl. by rewrite HasPrefix_nil. Qed.

Lemma TrimPrefix_not_v s :
  (forall rest, s <> String "v" rest) -> GoString.TrimPrefix s "v" = s.
Proof.
  intros H. unfold GoString.TrimPrefix. destruct s as [|c s]; [done|]. simpl.
  destruct (Ascii.eqb_spec c "v") as [->|]; [by destruct (H s) | done].
Qed.

Lemma append_assoc a b c : (a +:+ b) +:+ c = a +:+ b +:+ c.
Proof.
  induction a as [|x a IH]; [done|].
  change (String x ((a +:+ b) +:+ c) = String x (a +:+ b +:+ c)).
  by rewrite IH.
Qed.

Lemma append_nil_r a : a +:+ "" = a.
Proof.
  induction a as [|x a IH]; [done|].
  change (String x (a +:+ "") = String x a). by rewrite IH.
Qed.

Lemma occurs_in_mid a sub b : occurs_in sub (a +:+ sub +:+ b).
Proof. by exists a, b. Qed.

End Strings.

(** ** Traces *)

Lemma emitted_app {A} (m : M A) (w : World) (evs : list Event) :
  trace (exec m w) = trace w ++ evs -> emitted m w = evs.
Proof. unfold emitted. intros ->. by rewrite drop_app_length. Qed.

Lemma releaseURL_unfold id api :
  (if negb (GoString.eq api "") then api else "https://api.github.com")
  +:+ "/repos/" +:+ id +:+ "/releases/latest" = releaseURL id api.
Proof. by destruct api. Qed.

(** ** Release lookup *)

Section Lookup.

Context {lib : GoLib}.

(** Past the validation and the construction of the request. *)
Ltac enter_lookup Hid Hreq :=
  unfold getLatestVersionGitHubImpl;
  rewrite (proj2 (Contains_slash _) (proj1 (slashes_pos _) Hid));
  simpl negb; cbv iota;
  rewrite releaseURL_unfold, Hreq;
  unfold bind, http.Do, emit, get, ret; simpl.

Lemma lookup_world (identifier apiBase : string) (w : World) :
  1 <= slashes identifier ->
  http_NewRequest "GET" (releaseURL identifier apiBase) = None ->
  exec (getLatestVersionGitHubImpl identifier apiBase) w
  = with_trace w (trace w ++ [releaseRequest identifier apiBase]).
Proof.
  intros Hid Hreq. unfold exec. enter_lookup Hid Hreq.
  destruct (server w _) as [cause|code body]; simpl; [done|].
  destruct (code =? 200)%Z; simpl.
  - destruct (json_decode_release body) as [info|e]; simpl; [|done].
    by destruct (GoString.eq (TagName info) "").
  - done.
Qed.

Lemma lookup_unbuilt (identifier apiBase cause : string) (w : World) :
  1 <= slashes identifier ->
  http_NewRequest "GET" (releaseURL identifier apiBase) = Some cause ->
  getLatestVersionGitHubImpl identifier apiBase w
  = (Err ("internal error creating request for " +:+ identifier
          +:+ ": " +:+ cause), w).
Proof.
  intros Hid Hreq. unfold getLatestVersionGitHubImpl.
  rewrite (proj2 (Contains_slash _) (proj1 (slashes_pos _) Hid)).
  simpl negb; cbv iota. by rewrite releaseURL_unfold, Hreq.
Qed.

Lemma lookup_rejected (identifier apiBase : string) (w : World) :
  slashes identifier = 0 ->
  getLatestVersionGitHubImpl identifier apiBase w
  = (Err (invalidIdentifier identifier), w).
Proof.
  intros H%slashes_zero. unfold getLatestVersionGitHubImpl.
  by rewrite (proj2 (Contains_slash_false _) H).
Qed.

(** No failure past the validation reads like the validation failure. *)
Lemma lookup_accepted (identifier apiBase : string) (w : World) :
  1 <= slashes identifier ->
  eval (getLatestVersionGitHubImpl identifier apiBase) w
  <> Err (invalidIdentifier identifier).
Proof.
  intros Hid.
  destruct (http_NewRequest "GET" (releaseURL identifier apiBase))
    as [cause|] eqn:Hreq.
  - unfold eval. rewrite (lookup_unbuilt _ _ cause) by done. simpl.
    intros H. cbv [String.append invalidIdentifier] in H. discriminate H.
  - unfold eval. enter_lookup Hid Hreq.
    destruct (server w _) as [cause|code body]; simpl.
    { intros H. cbv [String.append invalidIdentifier] in H. discriminate H. }
    destruct (code =? 200)%Z; simpl.
    + destruct (json_decode_release body) as [info|e]; simpl.
      * destruct (GoString.eq (TagName info) ""); simpl; intros H;
          [cbv [String.append invalidIdentifier] in H|]; discriminate H.
      * intros H. cbv [String.append invalidIdentifier] in H. discriminate H.
    + intros H. cbv [String.append invalidIdentifier] in H. discriminate H.
Qed.

(** C4. An identifier without [/] gets the validation failure and the
    world is left as it was: nothing is added to the trace, so no
    request has been sent. *)
Theorem no_slash_fails_before_any_request
  (identifier apiBase : string) (w : World) :
  slashes identifier = 0 ->
  getLatestVersionGitHubImpl identifier apiBase w
  = (Err (invalidIdentifier identifier), w).
Proof. apply lookup_rejected. Qed.

(** C5, as the code has it. The validation turns an identifier away
    exactly when it has no [/]; an identifier with one [/] or with
    several passes, and once its request is built that request, to
    [<apiBase>/repos/<identifier>/releases/latest], is sent. *)
Theorem validation_only_requires_a_slash
  (identifier apiBase : string) (w : World) :
  (eval (getLatestVersionGitHubImpl identifier apiBase) w
     = Err (invalidIdentifier identifier)
   <-> slashes identifier = 0)
  /\ (1 <= slashes identifier ->
      http_NewRequest "GET" (releaseURL identifier apiBase) = None ->
      emitted (getLatestVersionGitHubImpl identifier apiBase) w
      = [releaseRequest identifier apiBase]).
Proof.
  split; [split|].
  - intros H. destruct (slashes identifier) eqn:E; [done|].
    exfalso. apply (lookup_accepted identifier apiBase w); [lia | done].
  - intros H. unfold eval. by rewrite lookup_rejected.
  - intros Hid Hreq. apply emitted_app. by rewrite lookup_world.
Qed.

(** C3. A 200 answer whose body decodes to a non-empty tag makes the
    lookup succeed with the tag less one leading [v], or with the tag
    itself when it does not start with [v]. *)
Theorem ok_answer_returns_tag_less_one_v
  (identifier apiBase body : string) (info : GitHubReleaseInfo) (w : World) :
  1 <= slashes identifier ->
  http_NewRequest "GET" (releaseURL identifier apiBase) = None ->
  server w (releaseURL identifier apiBase) = Response 200 body ->
  json_decode_release body = Ok info ->
  TagName info <> "" ->
  (forall rest, TagName info = String "v" rest ->
     eval (getLatestVersionGitHubImpl identifier apiBase) w = Ok rest)
  /\ ((forall rest, TagName info <> String "v" rest) ->
     eval (getLatestVersionGitHubImpl identifier apiBase) w = Ok (TagName info)).
Proof.
  intros Hid Hreq Hsrv Hdec Htag.
  assert (eval (getLatestVersionGitHubImpl identifier apiBase) w
          = Ok (GoString.TrimPrefix (TagName info) "v")) as ->.
  { unfold eval. enter_lookup Hid Hreq. rewrite Hsrv. simpl.
    rewrite Hdec. by rewrite (proj2 (eq_false _ _) Htag). }
  split.
  - intros rest ->. by rewrite TrimPrefix_v.
  - intros H. by rewrite TrimPrefix_not_v.
Qed.

(** C9. The tag [v] passes the emptiness test and is then stripped: the
    lookup succeeds with the empty string. *)
Theorem tag_v_returns_empty_version
  (identifier apiBase body : string) (info : GitHubReleaseInfo) (w : World) :
  1 <= slashes identifier ->
  http_NewRequest "GET" (releaseURL identifier apiBase) = None ->
  server w (releaseURL identifier apiBase) = Response 200 body ->
  json_decode_release body = Ok info ->
  TagName info = "v" ->
  eval (getLatestVersionGitHubImpl identifier apiBase) w = Ok "".
Proof.
  intros Hid Hreq Hsrv Hdec Htag.
  unfold eval. enter_lookup Hid Hreq. rewrite Hsrv. simpl.
  by rewrite Hdec, Htag.
Qed.

(** C8. An answer with a status other than 200 makes the lookup fail
    with an API error: its message starts with the identifier and the
    status in decimal; it goes on with the message of the body, and
    with the documentation URL when there is one, if the body decodes
    and carries a message, and with the URL of the request otherwise.
    A field is carried when it is not empty: the decoder gives the
    empty string for a field that is left out. *)
Theorem other_status_is_api_error
  (identifier apiBase body : string) (status : Z) (w : World) :
  1 <= slashes identifier ->
  http_NewRequest "GET" (releaseURL identifier apiBase) = None ->
  server w (releaseURL identifier apiBase) = Response status body ->
  status <> 200%Z ->
  exists rest,
    let message := apiErrorHead identifier status +:+ rest in
    eval (getLatestVersionGitHubImpl identifier apiBase) w = Err message
    /\ occurs_in (GoString.itoa status) message
    /\ occurs_in identifier message
    /\ (forall e, json_decode_error body = Ok e -> Message e <> "" ->
          occurs_in (Message e) message
          /\ (DocumentationURL e <> "" ->
                occurs_in (DocumentationURL e) message
                /\ rest = ": " +:+ Message e
                          +:+ " (see " +:+ DocumentationURL e +:+ ")")
          /\ (DocumentationURL e = "" -> rest = ": " +:+ Message e))
    /\ ((forall e, json_decode_error body = Ok e -> Message e = "") ->
          occurs_in (releaseURL identifier apiBase) message
          /\ rest = " (URL: " +:+ releaseURL identifier apiBase +:+ ")").
Proof.
  intros Hid Hreq Hsrv Hstatus.
  pose (url := releaseURL identifier apiBase).
  set (rest :=
         match json_decode_error body with
         | Ok e =>
             if negb (GoString.eq (Message e) "") then
               ": " +:+ Message e +:+
               (if negb (GoString.eq (DocumentationURL e) "")
                then " (see " +:+ DocumentationURL e +:+ ")" else "")
             else " (URL: " +:+ url +:+ ")"
         | Err _ => " (URL: " +:+ url +:+ ")"
         end).
  exists rest. cbv zeta. repeat split.
  - unfold eval. enter_lookup Hid Hreq. rewrite Hsrv. simpl.
    by rewrite (proj2 (Z.eqb_neq _ _) Hstatus).
  - exists ("GitHub API error for " +:+ identifier +:+ " (status "),
           (")" +:+ rest).
    unfold apiErrorHead. by rewrite !append_assoc.
  - exists "GitHub API error for ",
           (" (status " +:+ GoString.itoa status +:+ ")" +:+ rest).
    unfold apiErrorHead. by rewrite !append_assoc.
  - subst rest. rewrite H. rewrite (proj2 (eq_false _ _) H0). simpl.
    exists (apiErrorHead identifier status +:+ ": "),
           (if negb (GoString.eq (DocumentationURL e) "")
            then " (see " +:+ DocumentationURL e +:+ ")" else "").
    by rewrite !append_assoc.
  - subst rest. rewrite H, (proj2 (eq_false _ _) H0), (proj2 (eq_false _ _) H1).
    simpl.
    exists (apiErrorHead identifier status +:+ ": " +:+ Message e +:+ " (see "),
           ")".
    by rewrite !append_assoc.
  - subst rest. by rewrite H, (proj2 (eq_false _ _) H0), (proj2 (eq_false _ _) H1).
  - intros Hdoc. subst rest.
    rewrite H, (proj2 (eq_false _ _) H0), Hdoc. simpl.
    by rewrite append_nil_r.
  - assert (rest = " (URL: " +:+ url +:+ ")") as ->.
    { subst rest. destruct (json_decode_error body) as [e|]; [|done].
      by rewrite (H e eq_refl). }
    exists (apiErrorHead identifier status +:+ " (URL: "), ")".
    by rewrite !append_assoc.
  - subst rest. destruct (json_decode_error body) as [e|]; [|done].
    by rewrite (H e eq_refl).
Qed.

End Lookup.

(** C5 as stated fails: [a/b/c] has two separators, yet the lookup does
    not return the validation failure; it sends its request and returns
    the tag of the answer. *)
Lemma two_slashes_are_looked_up :
  ~ rejects_many_slashes "a/b/c" ""
      (Sample.machine "versions.toml"
         (fun _ => Response 200 (Sample.tag_body "v1.0.0"))).
Proof.
  intros H. destruct H as [H _]; [vm_compute; lia|].
  vm_compute in H. discriminate H.
Qed.

Lemma no_slash_fails_before_any_request_witness :
  slashes "ownerrepo" = 0
  /\ getLatestVersionGitHubImpl "ownerrepo" ""
       (Sample.machine "versions.toml" (fun _ => TransportError "unreachable"))
     = (Err (invalidIdentifier "ownerrepo"),
        Sample.machine "versions.toml" (fun _ => TransportError "unreachable")).
Proof.
  split; [reflexivity|].
  apply no_slash_fails_before_any_request. reflexivity.
Defined.

Lemma ok_answer_returns_tag_less_one_v_witness :
  let w := Sample.machine "versions.toml"
             (fun _ => Response 200 (Sample.tag_body "v1.2.3")) in
  (forall rest, "v1.2.3" = String "v" rest ->
     eval (getLatestVersionGitHubImpl "owner/repo" "") w = Ok rest)
  /\ ((forall rest, "v1.2.3" <> String "v" rest) ->
     eval (getLatestVersionGitHubImpl "owner/repo" "") w = Ok "v1.2.3").
Proof.
  intros w.
  apply (ok_answer_returns_tag_less_one_v "owner/repo" ""
           (Sample.tag_body "v1.2.3")
           {| TagName := "v1.2.3"; Name := "Release"; Body := ""; HTMLURL := "" |}
           w).
  - vm_compute. lia.
  - reflexivity.
  - reflexivity.
  - vm_compute. reflexivity.
  - discriminate.
Defined.

Lemma tag_v_returns_empty_version_witness :
  eval (getLatestVersionGitHubImpl "owner/repo" "")
       (Sample.machine "versions.toml"
          (fun _ => Response 200 (Sample.tag_body "v")))
  = Ok "".
Proof.
  apply (tag_v_returns_empty_version "owner/repo" "" (Sample.tag_body "v")
           {| TagName := "v"; Name := "Release"; Body := ""; HTMLURL := "" |}).
  - vm_compute. lia.
  - reflexivity.
  - reflexivity.
  - vm_compute. reflexivity.
  - reflexivity.
Defined.

Example two_slashes_request :
  emitted (getLatestVersionGitHubImpl "a/b/c" "")
    (Sample.machine "versions.toml"
       (fun _ => Response 200 (Sample.tag_body "v1.0.0")))
  = [EvHttp "GET" "https://api.github.com/repos/a/b/c/releases/latest"
       [("User-Agent", "ShouldUpdateApp/1.0");
        ("Accept", "application/vnd.github.v3+json")]].
Proof. vm_compute. reflexivity. Qed.

Lemma other_status_is_api_error_witness :
  exists rest,
    eval (getLatestVersionGitHubImpl "owner/nonexistent_repo" "")
         (Sample.machine "versions.toml"
            (fun _ => Response 404
                        (Sample.error_body "Not Found" "https://docs.github.com/rest")))
    = Err (apiErrorHead "owner/nonexistent_repo" 404 +:+ rest)
    /\ rest = ": Not Found (see https://docs.github.com/rest)".
Proof.
  destruct (other_status_is_api_error "owner/nonexistent_repo" ""
              (Sample.error_body "Not Found" "https://docs.github.com/rest") 404
              (Sample.machine "versions.toml"
                 (fun _ => Response 404
                    (Sample.error_body "Not Found" "https://docs.github.com/rest"))))
    as (rest & Hmsg & _ & _ & Hbody & _).
  - vm_compute. lia.
  - reflexivity.
  - reflexivity.
  - discriminate.
  - exists rest. split; [exact Hmsg|].
    destruct (Hbody {| Message := "Not Found";
                       DocumentationURL := "https://docs.github.com/rest" |})
      as (_ & Hdoc & _).
    + vm_compute. reflexivity.
    + discriminate.
    + apply Hdoc. discriminate.
Defined.

(** The 404 of the test suite: a plain-text body, so the message ends
    with the URL of the request. *)
Example not_found_plain_text :
  eval (getLatestVersionGitHubImpl "owner/nonexistent_repo" "http://127.0.0.1:8080")
       (Sample.machine "versions.toml" (fun _ => Response 404 "Not Found"))
  = Err "GitHub API error for owner/nonexistent_repo (status 404) (URL: http://127.0.0.1:8080/repos/owner/nonexistent_repo/releases/latest)".
Proof. vm_compute. reflexivity. Qed.

(** ** Version store *)

Section Store.

Context {lib : GoLib}.

Lemma with_trace_trace w t t' : with_trace (with_trace w t) t' = with_trace w t'.
Proof. done. Qed.

(** The four ways [loadConfig] ends. *)
Lemma loadConfig_missing (w : World) :
  files w !! configFile w = None ->
  read_error w (configFile w) = None ->
  loadConfig w
  = (Ok ∅, with_trace w (trace w ++ [EvStat (configFile w);
                                     notFoundLog (configFile w)])).
Proof.
  intros Hf Hr.
  unfold loadConfig, bind, get, os.StatNotExist, bind, emit, get, ret.
  unfold with_trace. cbn. rewrite bool_decide_eq_true_2 by done.
  unfold log_Printf, emit. simpl. by rewrite <- app_assoc.
Qed.

Lemma loadConfig_inaccessible (w : World) (cause : string) :
  read_error w (configFile w) = Some cause ->
  loadConfig w
  = (Err ("could not read config file '" +:+ configFile w +:+ "': " +:+ cause),
     with_trace w
       (trace w ++ [EvStat (configFile w); EvReadFile (configFile w);
                    EvLog ("Debug: Error reading config file "
                           +:+ configFile w +:+ ": " +:+ cause)])).
Proof.
  intros Hr.
  unfold loadConfig, bind, get, os.StatNotExist, os.ReadFile, bind, emit, get, ret.
  unfold with_trace. cbn.
  rewrite bool_decide_eq_false_2 by (intros [_ H]; congruence).
  cbn. rewrite Hr. unfold log_Printf, emit.
  destruct (files w !! configFile w); simpl; by rewrite <- !app_assoc.
Qed.

Lemma loadConfig_unreadable (w : World) (data cause : string) :
  files w !! configFile w = Some data ->
  read_error w (configFile w) = Some cause ->
  loadConfig w
  = (Err ("could not read config file '" +:+ configFile w +:+ "': " +:+ cause),
     with_trace w
       (trace w ++ [EvStat (configFile w); EvReadFile (configFile w);
                    EvLog ("Debug: Error reading config file "
                           +:+ configFile w +:+ ": " +:+ cause)])).
Proof.
  intros Hf Hr. by apply loadConfig_inaccessible.
Qed.

Lemma loadConfig_readable (w : World) (data : string) :
  files w !! configFile w = Some data ->
  read_error w (configFile w) = None ->
  loadConfig w
  = match toml_Unmarshal data with
    | Ok config =>
        (Ok config,
         with_trace w (trace w ++ [EvStat (configFile w);
                                   EvReadFile (configFile w)]))
    | Err cause =>
        (Err ("could not parse config file '" +:+ configFile w
              +:+ "' (TOML format error): " +:+ cause),
         with_trace w
           (trace w ++ [EvStat (configFile w); EvReadFile (configFile w);
                        EvLog ("Debug: Error unmarshalling TOML from "
                               +:+ configFile w +:+ ": " +:+ cause)]))
    end.
Proof.
  intros Hf Hr.
  unfold loadConfig, bind, get, os.StatNotExist, os.ReadFile, bind, emit, get, ret.
  unfold with_trace. cbn.
  rewrite bool_decide_eq_false_2 by (intros [H _]; congruence).
  cbn. rewrite Hf, Hr. destruct (toml_Unmarshal data); simpl.
  - by rewrite <- !app_assoc.
  - unfold log_Printf, emit. simpl. by rewrite <- !app_assoc.
Qed.

(** [loadConfig] changes nothing but the trace, and adds no write to it. *)
Lemma loadConfig_frame (w : World) :
  exists evs,
    exec loadConfig w = with_trace w (trace w ++ evs)
    /\ Forall is_load_event evs.
Proof.
  unfold exec.
  destruct (files w !! configFile w) as [data|] eqn:Hf.
  - destruct (read_error w (configFile w)) as [cause|] eqn:Hr.
    + rewrite (loadConfig_unreadable w data cause) by done.
      eexists; split; [done|]. by repeat constructor.
    + rewrite (loadConfig_readable w data) by done.
      destruct (toml_Unmarshal data); eexists; (split; [done|]);
        by repeat constructor.
  - destruct (read_error w (configFile w)) as [cause|] eqn:Hr.
    + rewrite (loadConfig_inaccessible w cause) by done.
      eexists; split; [done|]. by repeat constructor.
    + rewrite loadConfig_missing by done.
      eexists; split; [done|]. by repeat constructor.
Qed.


(** C7, as the code has it. When [os.Stat] answers that the file does not
    exist, the load gives the empty map and no error.  When the path
    cannot be looked at or read for another reason, with a file there or
    without, the load gives the read failure; when the content is read
    and does not parse, the parse failure.  No map comes back with a
    failure. *)
Theorem load_empty_only_when_stat_says_missing (w : World) :
  (files w !! configFile w = None ->
   read_error w (configFile w) = None ->
   eval loadConfig w = Ok ∅)
  /\ (forall cause,
        read_error w (configFile w) = Some cause ->
        eval loadConfig w
        = Err ("could not read config file '" +:+ configFile w
               +:+ "': " +:+ cause))
  /\ (forall data cause,
        files w !! configFile w = Some data ->
        read_error w (configFile w) = None ->
        toml_Unmarshal data = Err cause ->
        eval loadConfig w
        = Err ("could not parse config file '" +:+ configFile w
               +:+ "' (TOML format error): " +:+ cause)).
Proof.
  unfold eval. repeat split.
  - intros Hf Hr. by rewrite loadConfig_missing.
  - intros cause Hr. by rewrite (loadConfig_inaccessible w cause).
  - intros data cause Hf Hr Hp.
    by rewrite (loadConfig_readable w data), Hp.
Qed.


End Store.


Example save_then_load_empty :
  eval loadConfig
       (exec (saveConfig ∅)
             (Sample.machine "versions.toml" (fun _ => TransportError "unreachable")))
  = Ok ∅.
Proof. vm_compute. reflexivity. Qed.

Example load_nothing :
  eval loadConfig
       (Sample.machine "versions.toml" (fun _ => TransportError "unreachable"))
  = Ok ∅.
Proof. vm_compute. reflexivity. Qed.

(** ** Commands *)

Section Remove.

Context {lib : GoLib}.

Lemma is_load_event_not_write e : is_load_event e -> ~ is_write e.
Proof. destruct e; simpl; tauto. Qed.

(** C10. Removing an identifier the store does not have ends with the
    information line, right after the load: [saveConfig] is not run,
    the files are what they were and no directory or file is written.
    Removing one it has hands [saveConfig] a map without that key whose
    other entries are those of the loaded map. *)
Theorem remove_absent_saves_nothing_present_drops_one_key
  (appName : string) (config : Config) (w w1 : World) :
  loadConfig w = (Ok config, w1) ->
  (config !! appName = None ->
     handleRemoveCmd appName w
     = PrintInfo ("Application '" +:+ Colorize appName colorMagentaFg
                  +:+ "' not found in configuration. Nothing to remove.") w1
     /\ files (exec (handleRemoveCmd appName) w) = files w
     /\ Forall (fun e => ~ is_write e) (emitted (handleRemoveCmd appName) w))
  /\ (forall version, config !! appName = Some version ->
      exists config' : Config,
        handleRemoveCmd appName w
        = (let* err := saveConfig config' in removeReport appName err) w1
        /\ config' !! appName = None
        /\ forall k, k <> appName -> config' !! k = config !! k).
Proof.
  intros Hload. split.
  - intros Habsent.
    assert (handleRemoveCmd appName w
            = PrintInfo ("Application '" +:+ Colorize appName colorMagentaFg
                         +:+ "' not found in configuration. Nothing to remove.") w1)
      as Hrun.
    { unfold handleRemoveCmd, bind. by rewrite Hload, Habsent. }
    destruct (loadConfig_frame w) as (evs & Hw1 & Hevs).
    unfold exec in Hw1. rewrite Hload in Hw1. simpl in Hw1. subst w1.
    split; [done|]. unfold emitted, exec. rewrite Hrun.
    unfold PrintInfo, emit. simpl. split; [done|].
    rewrite <- app_assoc, drop_app_length.
    apply Forall_app. split.
    + eapply Forall_impl; [exact Hevs|]. apply is_load_event_not_write.
    + constructor; [simpl; tauto | constructor].
  - intros version Hpresent. exists (delete appName config). split; [|split].
    + unfold handleRemoveCmd, bind. by rewrite Hload, Hpresent.
    + apply lookup_delete_eq.
    + intros k Hk. by apply lookup_delete_ne.
Qed.

End Remove.

Section Check.

Context {lib : GoLib}.
Variable lookup : string -> string -> M (result string).

(** C1. When the lookup of a tracked identifier succeeds, the check
    prints one verdict line: up to date when the latest version equals
    the recorded one, update available when it is greater in the
    byte-wise lexicographic order, version discrepancy when it is
    smaller. *)
Theorem check_verdict_follows_bytewise_order
  (appName currentVersion latestVersion : string) (w w' : World) :
  1 <= slashes appName ->
  lookup appName "" (with_trace w (trace w ++ [EvStdout (checkingLine appName)]))
  = (Ok latestVersion, w') ->
  exists v,
    exec (checkAppVersion lookup appName currentVersion) w
    = with_trace w' (trace w' ++ [reports v currentVersion latestVersion])
    /\ (v = UpToDate <-> latestVersion = currentVersion)
    /\ (v = UpdateAvailable <-> lex_lt currentVersion latestVersion)
    /\ (v = VersionDiscrepancy <-> lex_lt latestVersion currentVersion).
Proof.
  intros Hid Hlook.
  unfold exec, checkAppVersion.
  rewrite (proj2 (Contains_slash _) (proj1 (slashes_pos _) Hid)).
  cbn [negb]. unfold bind, emit. cbn beta.
  fold (checkingLine appName). rewrite Hlook.
  destruct (GoString.eq latestVersion currentVersion) eqn:E.
  - apply eq_true in E as ->. exists UpToDate. repeat split; try done.
    + intros H. by apply lex_lt_irrefl in H.
    + intros H. by apply lex_lt_irrefl in H.
  - apply eq_false in E. cbv zeta.
    destruct (GoString.gt latestVersion currentVersion) eqn:G.
    + apply gt_true in G. exists UpdateAvailable. repeat split; try done.
      intros H. by apply lex_lt_asym in H.
    + assert (lex_lt latestVersion currentVersion) as L.
      { apply cmp_Lt. unfold GoString.gt in G.
        destruct (GoString.cmp latestVersion currentVersion) eqn:C;
          [by apply cmp_Eq in C | done | done]. }
      exists VersionDiscrepancy. repeat split; try done.
      intros H. by apply lex_lt_asym in H.
Qed.

End Check.

(** ** The lines that open a check *)

Section StartLines.

Lemma length_append a b :
  String.length (a +:+ b) = String.length a + String.length b.
Proof.
  induction a as [|x a IH]; [done|].
  change (S (String.length (a +:+ b)) = S (String.length a + String.length b)).
  by rewrite IH.
Qed.

Lemma append_inj_r a b s : a +:+ s = b +:+ s -> a = b.
Proof.
  revert b; induction a as [|x a IH]; intros [|y b] H.
  - done.
  - change (s = String y (b +:+ s)) in H.
    apply (f_equal String.length) in H.
    simpl in H. rewrite length_append in H. lia.
  - change (String x (a +:+ s) = s) in H.
    apply (f_equal String.length) in H.
    simpl in H. rewrite length_append in H. lia.
  - change (String x (a +:+ s) = String y (b +:+ s)) in H.
    injection H as -> H. f_equal. by apply IH.
Qed.

Lemma skipLine_inj a b : skipLine a = skipLine b -> a = b.
Proof.
  unfold skipLine, Colorize. rewrite !append_assoc. intros H.
  do 4 apply (inj (String.append _)) in H.
  by apply append_inj_r in H.
Qed.

Lemma checkingLine_inj a b : checkingLine a = checkingLine b -> a = b.
Proof.
  unfold checkingLine, Colorize. rewrite !append_assoc. intros H.
  do 3 apply (inj (String.append _)) in H.
  by apply append_inj_r in H.
Qed.

Lemma skipLine_checkingLine a b : skipLine a <> checkingLine b.
Proof. intros H. cbv in H. discriminate H. Qed.

Lemma EvStdout_inj s t : EvStdout s = EvStdout t -> s = t.
Proof. by intros [= ->]. Qed.

(** The line that opens the check of [b] opens no other check. *)
Lemma is_start_skip a b : is_start a (EvStdout (skipLine b)) -> a = b.
Proof.
  intros [H|H]; apply EvStdout_inj in H.
  - symmetry. by apply skipLine_inj.
  - by apply skipLine_checkingLine in H.
Qed.

Lemma is_start_checking a b : is_start a (EvStdout (checkingLine b)) -> a = b.
Proof.
  intros [H|H]; apply EvStdout_inj in H.
  - symmetry in H. by apply skipLine_checkingLine in H.
  - symmetry. by apply checkingLine_inj.
Qed.

(** What else the check flow prints opens no check. *)
Lemma verdictLine_not_start a cur latest c label :
  ~ is_start a (EvStdout (verdictLine cur latest c label)).
Proof. intros [H|H]; apply EvStdout_inj in H; cbv in H; discriminate H. Qed.

Lemma nl_not_start a : ~ is_start a (EvStdout nl).
Proof. intros [H|H]; apply EvStdout_inj in H; cbv in H; discriminate H. Qed.

Lemma header_not_start a message :
  ~ is_start a (EvStdout (colorFgDefault +:+ (colorBlueFg +:+ message)
                          +:+ colorReset +:+ nl)).
Proof. intros [H|H]; apply EvStdout_inj in H; cbv in H; discriminate H. Qed.

Lemma is_http_not_start a e : is_http e -> ~ is_start a e.
Proof. destruct e; simpl; try tauto. intros _ [H|H]; discriminate H. Qed.

Lemma is_load_event_not_start a e : is_load_event e -> ~ is_start a e.
Proof. destruct e; simpl; try tauto; intros _ [H|H]; discriminate H. Qed.

Lemma starts_none a evs :
  Forall (fun e => ~ is_start a e) evs -> starts a evs = 0.
Proof.
  unfold starts. induction 1 as [|e evs He _ IH]; [done|].
  by rewrite filter_cons_False.
Qed.

Lemma starts_app a evs evs' : starts a (evs ++ evs') = starts a evs + starts a evs'.
Proof. unfold starts. by rewrite filter_app, length_app. Qed.

End StartLines.

(** ** Checking every tracked identifier *)

Section CheckAll.

Context {lib : GoLib}.
Variable lookup : string -> string -> M (result string).
Hypothesis lookup_network_only : network_only lookup.

Lemma exec_then {A B} (m : M A) (k : M B) (w : World) :
  exec (m ;; k) w = exec k (exec m w).
Proof. unfold exec, bind. by destruct (m w). Qed.

Lemma with_trace_id (w : World) : with_trace w (trace w ++ []) = w.
Proof. destruct w. unfold with_trace. simpl. by rewrite app_nil_r. Qed.

Lemma starts_one a b tail :
  Forall (fun e => ~ is_start a e) tail ->
  (is_start a b <-> True) -> starts a (b :: tail) = 1.
Proof.
  intros Ht Hb. unfold starts. rewrite filter_cons_True by (by apply Hb).
  simpl. f_equal. by apply starts_none.
Qed.

(** One call of [checkAppVersion] opens the check of its identifier
    once and opens no other check, whatever comes of the lookup. *)
Lemma checkAppVersion_trace (appName currentVersion : string) (w : World) :
  exists evs,
    exec (checkAppVersion lookup appName currentVersion) w
    = with_trace w (trace w ++ evs)
    /\ forall a, starts a evs = if decide (a = appName) then 1 else 0.
Proof.
  unfold exec, checkAppVersion.
  destruct (GoString.Contains appName "/"); cbn [negb].
  - unfold bind, emit. cbn beta. fold (checkingLine appName).
    destruct (lookup_network_only appName ""
                (with_trace w (trace w ++ [EvStdout (checkingLine appName)])))
      as (evs1 & Hw1 & Hhttp).
    unfold exec in Hw1. destruct (lookup appName "" _) as [r w1].
    simpl in Hw1. subst w1.
    assert (forall tail,
               Forall (fun e => forall a, ~ is_start a e) tail ->
               forall a,
                 starts a (EvStdout (checkingLine appName) :: evs1 ++ tail)
                 = if decide (a = appName) then 1 else 0) as Hcount.
    { intros tail Htail a.
      change (EvStdout (checkingLine appName) :: evs1 ++ tail)
        with ([EvStdout (checkingLine appName)] ++ evs1 ++ tail).
      rewrite !starts_app.
      rewrite (starts_none a evs1), (starts_none a tail).
      - unfold starts. case_decide as Ha.
        + subst a. rewrite filter_cons_True by (by right). done.
        + rewrite filter_cons_False; [done|].
          intros H%is_start_checking. done.
      - eapply Forall_impl; [exact Htail|]. intros e He. apply He.
      - eapply Forall_impl; [exact Hhttp|]. intros e. apply is_http_not_start. }
    destruct r as [latestVersion|err].
    + assert (forall c label,
                 exists evs,
                   (emit (EvStdout (verdictLine currentVersion latestVersion c label))
                      (with_trace
                         (with_trace w (trace w ++ [EvStdout (checkingLine appName)]))
                         (trace (with_trace w (trace w ++ [EvStdout (checkingLine appName)]))
                          ++ evs1))).2
                   = with_trace w (trace w ++ evs)
                   /\ forall a, starts a evs = if decide (a = appName) then 1 else 0)
        as Hverdict.
      { intros c label.
        exists (EvStdout (checkingLine appName)
                  :: evs1 ++ [EvStdout (verdictLine currentVersion latestVersion c label)]).
        split.
        - unfold emit, with_trace. simpl. by rewrite <- !app_assoc.
        - apply Hcount. constructor; [|constructor].
          intros a. apply verdictLine_not_start. }
      destruct (GoString.eq latestVersion currentVersion); [apply Hverdict|].
      cbv zeta.
      destruct (GoString.gt latestVersion currentVersion); apply Hverdict.
    + exists (EvStdout (checkingLine appName)
                :: evs1 ++ [EvStdout nl;
                            EvStderr (colorRedFg +:+ "Error: "
                                      +:+ ("Failed to check "
                                           +:+ Colorize appName colorMagentaFg
                                           +:+ ": " +:+ err)
                                      +:+ colorReset +:+ nl)]).
      split.
      * unfold PrintError, emit, with_trace. simpl. by rewrite <- !app_assoc.
      * apply Hcount. repeat constructor.
        -- intros a. apply nl_not_start.
        -- intros a [H|H]; discriminate H.
  - exists [EvStdout (skipLine appName)]. split; [done|].
    intros a. unfold starts. case_decide as Ha.
    + subst a. by rewrite filter_cons_True by (by left).
    + rewrite filter_cons_False; [done|]. intros H%is_start_skip. done.
Qed.

(** The loop opens the check of each entry it walks, in turn. *)
Lemma for_each_trace (entries : list (string * string)) (w : World) :
  NoDup entries.*1 ->
  exists evs,
    exec (for_each (fun kv => checkAppVersion lookup kv.1 kv.2) entries) w
    = with_trace w (trace w ++ evs)
    /\ forall a, starts a evs = if decide (a ∈ entries.*1) then 1 else 0.
Proof.
  revert w. induction entries as [|[k v] entries IH]; intros w Hnodup.
  - exists []. split; [by rewrite with_trace_id|].
    intros a. case_decide as Ha; [by apply elem_of_nil in Ha | done].
  - rewrite fmap_cons in Hnodup. apply NoDup_cons in Hnodup as [Hk Hnodup].
    change ((k, v).1) with k in Hk. simpl for_each.
    rewrite exec_then.
    destruct (checkAppVersion_trace k v w) as (evs1 & -> & H1).
    destruct (IH (with_trace w (trace w ++ evs1)) Hnodup) as (evs2 & -> & H2).
    exists (evs1 ++ evs2). split.
    + unfold with_trace. simpl. by rewrite <- app_assoc.
    + intros a. rewrite starts_app, H1, H2, fmap_cons.
      change ((k, v).1) with k.
      destruct (decide (a = k)) as [Hak|Hak];
        destruct (decide (a ∈ entries.*1)) as [Hin|Hin];
        destruct (decide (a ∈ k :: entries.*1)) as [Hc|Hc];
        first [ done | by subst
              | exfalso; apply Hc; subst; first [by left | by right]
              | apply elem_of_cons in Hc as [?|?]; done ].
Qed.

End CheckAll.

Section CheckCommand.

Context {lib : GoLib}.

Lemma impl_network_only : network_only getLatestVersionGitHubImpl.
Proof.
  intros identifier apiBase w.
  destruct (slashes identifier) as [|n] eqn:Hn.
  - exists []. unfold exec. rewrite lookup_rejected by done.
    split; [by rewrite with_trace_id | constructor].
  - destruct (http_NewRequest "GET" (releaseURL identifier apiBase))
      as [cause|] eqn:Hreq.
    + exists []. unfold exec. rewrite (lookup_unbuilt _ _ cause) by (done || lia).
      split; [by rewrite with_trace_id | constructor].
    + exists [releaseRequest identifier apiBase].
      rewrite lookup_world by (done || lia).
      split; [done|]. by repeat constructor.
Qed.

(** A check of all tracked identifiers opens the check of every one of
    them exactly once, in whatever order [range] walks the store. *)
Lemma check_all_starts
  (lookup : string -> string -> M (result string))
  (config : Config) (w w1 : World) :
  network_only lookup ->
  loadConfig w = (Ok config, w1) ->
  range_order w config ≡ₚ map_to_list config ->
  forall appName version,
    config !! appName = Some version ->
    starts appName (emitted (handleCheckCmd lookup "") w) = 1.
Proof.
  intros Hlookup Hload Horder appName version Hin.
  destruct (loadConfig_frame w) as (evs0 & Hw1 & Hevs0).
  unfold exec in Hw1. rewrite Hload in Hw1. simpl in Hw1. subst w1.
  assert (size config <> 0) as Hsize.
  { intros ->%map_size_empty_iff. by rewrite lookup_empty in Hin. }
  assert (NoDup (range_order w config).*1) as Hnodup.
  { rewrite Horder. apply NoDup_fst_map_to_list. }
  assert (appName ∈ (range_order w config).*1) as Hmem.
  { rewrite Horder. apply list_elem_of_fmap. exists (appName, version).
    split; [done|]. by apply elem_of_map_to_list. }
  set (w2 := with_trace w
               ((trace w ++ evs0)
                ++ [EvStdout (colorFgDefault
                              +:+ (colorBlueFg
                                   +:+ "Checking all managed applications for updates..."
                                   +:+ colorReset)
                              +:+ colorReset +:+ nl)])).
  destruct (for_each_trace lookup Hlookup (range_order w config) w2 Hnodup)
    as (evs & Hloop & Hcount).
  assert (exec (handleCheckCmd lookup "") w
          = with_trace w2 (trace w2 ++ evs)) as Hrun.
  { unfold exec, handleCheckCmd. unfold bind at 1. rewrite Hload.
    destruct (Nat.eqb_spec (size config) 0) as [|_]; [done|].
    cbn [negb GoString.eq String.eqb].
    rewrite <- Hloop. unfold exec, PrintMessage, bind, emit, get. reflexivity. }
  unfold emitted. rewrite Hrun. subst w2. cbn [trace with_trace].
  rewrite <- !app_assoc, drop_app_length, !starts_app, Hcount.
  rewrite decide_True by done.
  rewrite (starts_none appName evs0).
  - unfold starts. rewrite filter_cons_False; [done|].
    apply header_not_start.
  - eapply Forall_impl; [exact Hevs0|]. intros e. apply is_load_event_not_start.
Qed.

End CheckCommand.

(** ** The commands at concrete inputs *)

Lemma check_verdict_follows_bytewise_order_witness :
  let w := Sample.machine "versions.toml" (fun _ => TransportError "unused") in
  let w' := with_trace w [EvStdout (checkingLine "owner/app2")] in
  exists v,
    exec (checkAppVersion (fixedLookup (Ok "1.1.0")) "owner/app2" "1.0.0") w
    = with_trace w' (trace w' ++ [reports v "1.0.0" "1.1.0"])
    /\ (v = UpToDate <-> "1.1.0" = "1.0.0")
    /\ (v = UpdateAvailable <-> lex_lt "1.0.0" "1.1.0")
    /\ (v = VersionDiscrepancy <-> lex_lt "1.1.0" "1.0.0").
Proof.
  intros w w'.
  apply (check_verdict_follows_bytewise_order (fixedLookup (Ok "1.1.0"))
           "owner/app2" "1.0.0" "1.1.0" w w').
  - vm_compute. lia.
  - reflexivity.
Defined.

(** The three comparisons the specification lists. *)
Example check_up_to_date :
  emitted (checkAppVersion (fixedLookup (Ok "1.0.0")) "owner/app1" "1.0.0")
          (Sample.machine "versions.toml" (fun _ => TransportError "unused"))
  = [EvStdout (checkingLine "owner/app1"); reports UpToDate "1.0.0" "1.0.0"].
Proof. vm_compute. reflexivity. Qed.

Example check_update_available :
  emitted (checkAppVersion (fixedLookup (Ok "1.1.0")) "owner/app2" "1.0.0")
          (Sample.machine "versions.toml" (fun _ => TransportError "unused"))
  = [EvStdout (checkingLine "owner/app2"); reports UpdateAvailable "1.0.0" "1.1.0"].
Proof. vm_compute. reflexivity. Qed.

Example check_version_discrepancy :
  emitted (checkAppVersion (fixedLookup (Ok "1.1.0")) "owner/app3" "1.2.0")
          (Sample.machine "versions.toml" (fun _ => TransportError "unused"))
  = [EvStdout (checkingLine "owner/app3"); reports VersionDiscrepancy "1.2.0" "1.1.0"].
Proof. vm_compute. reflexivity. Qed.

(** Byte-wise order, not version order: 10.0.0 sorts below 2.0.0. *)
Example check_ten_below_two :
  emitted (checkAppVersion (fixedLookup (Ok "10.0.0")) "owner/app" "2.0.0")
          (Sample.machine "versions.toml" (fun _ => TransportError "unused"))
  = [EvStdout (checkingLine "owner/app"); reports VersionDiscrepancy "2.0.0" "10.0.0"].
Proof. vm_compute. reflexivity. Qed.

(** The batch of the tests: one identifier is skipped, one lookup fails
    with a 404, and the third is still compared. *)
Example batch_opening_lines :
  filter (fun e => Exists (fun a => is_start a e)
                          ["invalidAppC"; "owner/appA"; "owner/appB"])
         (emitted (handleCheckCmd getLatestVersionGitHubImpl "") Sample.batch_machine)
  = [EvStdout (checkingLine "owner/appA");
     EvStdout (checkingLine "owner/appB");
     EvStdout (skipLine "invalidAppC")].
Proof. vm_compute. reflexivity. Qed.

Lemma remove_absent_saves_nothing_present_drops_one_key_witness :
  files (exec (handleRemoveCmd "ghostApp") Sample.batch_machine)
  = files Sample.batch_machine
  /\ Forall (fun e => ~ is_write e)
            (emitted (handleRemoveCmd "ghostApp") Sample.batch_machine).
Proof.
  assert (loadConfig Sample.batch_machine
          = (Ok Sample.batch, exec loadConfig Sample.batch_machine)) as Hload
      by (vm_compute; reflexivity).
  destruct (remove_absent_saves_nothing_present_drops_one_key
              "ghostApp" Sample.batch Sample.batch_machine _ Hload)
    as [Habsent _].
  apply Habsent. vm_compute. reflexivity.
Defined.

(** Removing a tracked identifier rewrites the file without it. *)
Example remove_present :
  eval loadConfig (exec (handleRemoveCmd "owner/appB") Sample.batch_machine)
  = Ok (<["owner/appA" := "1.0.0"]> (<["invalidAppC" := "2.0.0"]> ∅)).
Proof. vm_compute. reflexivity. Qed.

(** * Further properties *)

(** ** Release lookup: the failures and the single request *)

Section LookupOutcomes.

Context {lib : GoLib}.

Ltac enter_lookup Hid Hreq :=
  unfold getLatestVersionGitHubImpl;
  rewrite (proj2 (Contains_slash _) (proj1 (slashes_pos _) Hid));
  simpl negb; cbv iota;
  rewrite releaseURL_unfold, Hreq;
  unfold bind, http.Do, emit, get, ret; simpl.

(** The whole of a lookup whose request has been built, by the answer. *)
Lemma lookup_answered (identifier apiBase : string) (w : World) :
  1 <= slashes identifier ->
  http_NewRequest "GET" (releaseURL identifier apiBase) = None ->
  eval (getLatestVersionGitHubImpl identifier apiBase) w
  = match server w (releaseURL identifier apiBase) with
    | TransportError cause =>
        Err ("network error fetching release info for " +:+ identifier
             +:+ " from " +:+ releaseURL identifier apiBase +:+ ": " +:+ cause)
    | Response status body =>
        if (status =? 200)%Z then
          match json_decode_release body with
          | Err cause =>
              Err ("error decoding JSON response for " +:+ identifier
                   +:+ " from " +:+ releaseURL identifier apiBase
                   +:+ ": " +:+ cause)
          | Ok info =>
              if GoString.eq (TagName info) "" then
                Err ("no version tag (tag_name) found in the latest release for "
                     +:+ identifier +:+ " (URL: "
                     +:+ releaseURL identifier apiBase +:+ ")")
              else Ok (GoString.TrimPrefix (TagName info) "v")
          end
        else
          Err (apiErrorHead identifier status +:+
               match json_decode_error body with
               | Ok e =>
                   if negb (GoString.eq (Message e) "") then
                     ": " +:+ Message e +:+
                     (if negb (GoString.eq (DocumentationURL e) "")
                      then " (see " +:+ DocumentationURL e +:+ ")" else "")
                   else " (URL: " +:+ releaseURL identifier apiBase +:+ ")"
               | Err _ => " (URL: " +:+ releaseURL identifier apiBase +:+ ")"
               end)
    end.
Proof.
  intros Hid Hreq. unfold eval. enter_lookup Hid Hreq.
  destruct (server w _) as [cause|status body]; simpl; [done|].
  destruct (status =? 200)%Z; simpl; [|done].
  destruct (json_decode_release body) as [info|cause]; simpl; [|done].
  by destruct (GoString.eq (TagName info) "").
Qed.

(** X1. When no answer comes back, the lookup fails with the network
    error, which carries the identifier, the URL and the cause; the one
    request has been sent. *)
Theorem transport_failure_is_network_error
  (identifier apiBase cause : string) (w : World) :
  1 <= slashes identifier ->
  http_NewRequest "GET" (releaseURL identifier apiBase) = None ->
  server w (releaseURL identifier apiBase) = TransportError cause ->
  getLatestVersionGitHubImpl identifier apiBase w
  = (Err ("network error fetching release info for " +:+ identifier
          +:+ " from " +:+ releaseURL identifier apiBase +:+ ": " +:+ cause),
     with_trace w (trace w ++ [releaseRequest identifier apiBase])).
Proof.
  intros Hid Hreq Hsrv.
  rewrite (surjective_pairing (getLatestVersionGitHubImpl identifier apiBase w)).
  f_equal.
  - change (eval (getLatestVersionGitHubImpl identifier apiBase) w = Err
      ("network error fetching release info for " +:+ identifier
       +:+ " from " +:+ releaseURL identifier apiBase +:+ ": " +:+ cause)).
    by rewrite lookup_answered, Hsrv.
  - by apply lookup_world.
Qed.

(** X2. A 200 answer whose body does not decode makes the lookup fail
    with the decoding error and the cause the decoder gave. *)
Theorem undecodable_ok_body_is_decode_error
  (identifier apiBase body cause : string) (w : World) :
  1 <= slashes identifier ->
  http_NewRequest "GET" (releaseURL identifier apiBase) = None ->
  server w (releaseURL identifier apiBase) = Response 200 body ->
  json_decode_release body = Err cause ->
  eval (getLatestVersionGitHubImpl identifier apiBase) w
  = Err ("error decoding JSON response for " +:+ identifier +:+ " from "
         +:+ releaseURL identifier apiBase +:+ ": " +:+ cause).
Proof.
  intros Hid Hreq Hsrv Hdec. by rewrite lookup_answered, Hsrv, Hdec.
Qed.

(** X3. A 200 answer that decodes to an empty tag, as a body without a
    [tag_name] does, makes the lookup fail with the missing-tag error,
    which gives the URL of the request. *)
Theorem empty_tag_is_missing_tag_error
  (identifier apiBase body : string) (info : GitHubReleaseInfo) (w : World) :
  1 <= slashes identifier ->
  http_NewRequest "GET" (releaseURL identifier apiBase) = None ->
  server w (releaseURL identifier apiBase) = Response 200 body ->
  json_decode_release body = Ok info ->
  TagName info = "" ->
  eval (getLatestVersionGitHubImpl identifier apiBase) w
  = Err ("no version tag (tag_name) found in the latest release for "
         +:+ identifier +:+ " (URL: " +:+ releaseURL identifier apiBase +:+ ")").
Proof.
  intros Hid Hreq Hsrv Hdec Htag.
  by rewrite lookup_answered, Hsrv, Hdec, Htag.
Qed.

(** X4. When the request cannot be built the lookup fails with the
    internal error and the world is left as it was: nothing is sent. *)
Theorem unbuildable_request_sends_nothing
  (identifier apiBase cause : string) (w : World) :
  1 <= slashes identifier ->
  http_NewRequest "GET" (releaseURL identifier apiBase) = Some cause ->
  getLatestVersionGitHubImpl identifier apiBase w
  = (Err ("internal error creating request for " +:+ identifier
          +:+ ": " +:+ cause), w).
Proof. apply lookup_unbuilt. Qed.

(** X5. Whatever its arguments and whatever the answer, a lookup changes
    nothing of the world but the trace, and it calls [client.Do] at most
    once, with the GET of the release URL and the two headers: it does
    not call it exactly when the identifier has no [/] or the request
    cannot be built, and it never calls it again after a failure.  What
    the client itself does to serve the call, redirects included, is
    not counted. *)
Theorem lookup_calls_the_client_at_most_once
  (identifier apiBase : string) (w : World) :
  exists evs,
    exec (getLatestVersionGitHubImpl identifier apiBase) w
    = with_trace w (trace w ++ evs)
    /\ (evs = [] \/ evs = [releaseRequest identifier apiBase])
    /\ (evs = [] <->
        slashes identifier = 0
        \/ http_NewRequest "GET" (releaseURL identifier apiBase) <> None).
Proof.
  destruct (slashes identifier) as [|n] eqn:Hn.
  - exists []. unfold exec. rewrite lookup_rejected by done.
    rewrite with_trace_id. repeat split; auto.
  - destruct (http_NewRequest "GET" (releaseURL identifier apiBase))
      as [cause|] eqn:Hreq.
    + exists []. unfold exec.
      rewrite (lookup_unbuilt _ _ cause) by (done || lia).
      rewrite with_trace_id. repeat split; auto.
    + exists [releaseRequest identifier apiBase].
      rewrite lookup_world by (done || lia).
      split; [done|]. split; [by right|]. split; [discriminate|].
      intros [H|H]; [discriminate H | done].
Qed.

(** X6. The lookup succeeds only on a 200 answer whose body decodes to a
    non-empty tag, and what it returns is that tag less one leading [v]. *)
Theorem lookup_succeeds_only_on_tagged_200
  (identifier apiBase version : string) (w : World) :
  eval (getLatestVersionGitHubImpl identifier apiBase) w = Ok version ->
  1 <= slashes identifier
  /\ http_NewRequest "GET" (releaseURL identifier apiBase) = None
  /\ exists body info,
       server w (releaseURL identifier apiBase) = Response 200 body
       /\ json_decode_release body = Ok info
       /\ TagName info <> ""
       /\ version = GoString.TrimPrefix (TagName info) "v".
Proof.
  intros H.
  destruct (slashes identifier) as [|n] eqn:Hn.
  { unfold eval in H. rewrite lookup_rejected in H by done. discriminate H. }
  destruct (http_NewRequest "GET" (releaseURL identifier apiBase))
    as [cause|] eqn:Hreq.
  { unfold eval in H. rewrite (lookup_unbuilt _ _ cause) in H by (done || lia).
    discriminate H. }
  rewrite lookup_answered in H by (done || lia).
  split; [lia|]. split; [done|].
  destruct (server w _) as [cause|status body]; [discriminate H|].
  destruct (Z.eqb_spec status 200) as [->|]; [|discriminate H].
  destruct (json_decode_release body) as [info|cause] eqn:Hdec; [|discriminate H].
  destruct (GoString.eq (TagName info) "") eqn:Htag; [discriminate H|].
  exists body, info. repeat split; try done.
  - by apply eq_false.
  - by injection H.
Qed.

(** X7. Every failure of the lookup, of whatever kind, names the
    identifier it was asked about. *)
Theorem lookup_failure_names_the_identifier
  (identifier apiBase message : string) (w : World) :
  eval (getLatestVersionGitHubImpl identifier apiBase) w = Err message ->
  occurs_in identifier message.
Proof.
  intros H.
  destruct (slashes identifier) as [|n] eqn:Hn.
  { unfold eval in H. rewrite lookup_rejected in H by done.
    injection H as <-. apply occurs_in_mid. }
  destruct (http_NewRequest "GET" (releaseURL identifier apiBase))
    as [cause|] eqn:Hreq.
  { unfold eval in H. rewrite (lookup_unbuilt _ _ cause) in H by (done || lia).
    injection H as <-. apply occurs_in_mid. }
  rewrite lookup_answered in H by (done || lia).
  destruct (server w _) as [cause|status body].
  { injection H as <-. apply occurs_in_mid. }
  destruct (status =? 200)%Z.
  - destruct (json_decode_release body) as [info|cause].
    + destruct (GoString.eq (TagName info) ""); [|discriminate H].
      injection H as <-. apply occurs_in_mid.
    + injection H as <-. apply occurs_in_mid.
  - injection H as <-. unfold apiErrorHead.
    eexists "GitHub API error for ", _. by rewrite !append_assoc.
Qed.

End LookupOutcomes.

Lemma transport_failure_is_network_error_witness :
  let w := Sample.machine "versions.toml"
             (fun _ => TransportError "connection refused") in
  getLatestVersionGitHubImpl "owner/repo" "http://127.0.0.1:1" w
  = (Err "network error fetching release info for owner/repo from http://127.0.0.1:1/repos/owner/repo/releases/latest: connection refused",
     with_trace w (trace w ++ [releaseRequest "owner/repo" "http://127.0.0.1:1"])).
Proof.
  intros w.
  apply (transport_failure_is_network_error "owner/repo" "http://127.0.0.1:1"
           "connection refused" w).
  - vm_compute. lia.
  - reflexivity.
  - reflexivity.
Defined.

Lemma undecodable_ok_body_is_decode_error_witness :
  eval (getLatestVersionGitHubImpl "owner/repo" "")
       (Sample.machine "versions.toml"
          (fun _ => Response 200 Sample.truncated_body))
  = Err "error decoding JSON response for owner/repo from https://api.github.com/repos/owner/repo/releases/latest: unexpected EOF".
Proof.
  apply (undecodable_ok_body_is_decode_error "owner/repo" ""
           Sample.truncated_body "unexpected EOF").
  - vm_compute. lia.
  - reflexivity.
  - reflexivity.
  - vm_compute. reflexivity.
Defined.

Lemma empty_tag_is_missing_tag_error_witness :
  eval (getLatestVersionGitHubImpl "owner/repo" "")
       (Sample.machine "versions.toml"
          (fun _ => Response 200 Sample.untagged_body))
  = Err "no version tag (tag_name) found in the latest release for owner/repo (URL: https://api.github.com/repos/owner/repo/releases/latest)".
Proof.
  apply (empty_tag_is_missing_tag_error "owner/repo" "" Sample.untagged_body
           {| TagName := ""; Name := "Release without tag";
              Body := ""; HTMLURL := "" |}).
  - vm_compute. lia.
  - reflexivity.
  - reflexivity.
  - vm_compute. reflexivity.
  - reflexivity.
Defined.

Lemma unbuildable_request_sends_nothing_witness :
  let w := Sample.machine "versions.toml" (fun _ => TransportError "unused") in
  exists cause,
    getLatestVersionGitHubImpl "owner/repo" ("http://host" +:+ nl) w
    = (Err ("internal error creating request for owner/repo: " +:+ cause), w).
Proof.
  intros w. eexists.
  apply (unbuildable_request_sends_nothing "owner/repo" ("http://host" +:+ nl)).
  - vm_compute. lia.
  - vm_compute. reflexivity.
Defined.

Lemma lookup_succeeds_only_on_tagged_200_witness :
  let w := Sample.machine "versions.toml"
             (fun _ => Response 200 (Sample.tag_body "v1.2.3")) in
  1 <= slashes "owner/repo"
  /\ http_NewRequest "GET" (releaseURL "owner/repo" "") = None
  /\ exists body info,
       server w (releaseURL "owner/repo" "") = Response 200 body
       /\ json_decode_release body = Ok info
       /\ TagName info <> ""
       /\ "1.2.3" = GoString.TrimPrefix (TagName info) "v".
Proof.
  intros w.
  apply (lookup_succeeds_only_on_tagged_200 "owner/repo" "" "1.2.3" w).
  vm_compute. reflexivity.
Defined.

Lemma lookup_failure_names_the_identifier_witness :
  occurs_in "owner/nonexistent_repo"
    "GitHub API error for owner/nonexistent_repo (status 404) (URL: https://api.github.com/repos/owner/nonexistent_repo/releases/latest)".
Proof.
  apply (lookup_failure_names_the_identifier "owner/nonexistent_repo" "" _
           (Sample.machine "versions.toml" (fun _ => Response 404 "Not Found"))).
  vm_compute. reflexivity.
Defined.

(** ** Version store: what load and save do and never do *)

Section StoreEffects.

Context {lib : GoLib}.

(** The four ways [saveConfig] ends. *)
Lemma saveConfig_run (config : Config) (w : World) :
  saveConfig config w
  = match toml_Marshal config with
    | Err cause =>
        (Some ("could not format configuration for saving: " +:+ cause),
         with_trace w
           (trace w ++ [EvLog ("Debug: Error marshalling config to TOML: "
                               +:+ cause)]))
    | Ok data =>
        match mkdir_error w (filepath_Dir (configFile w)) with
        | Some cause =>
            (Some ("could not create config directory '"
                   +:+ filepath_Dir (configFile w) +:+ "': " +:+ cause),
             with_trace w
               (trace w ++ [EvMkdirAll (filepath_Dir (configFile w));
                            EvLog ("Debug: Error creating directory structure "
                                   +:+ filepath_Dir (configFile w)
                                   +:+ ": " +:+ cause)]))
        | None =>
            match write_error w (configFile w) with
            | Some cause =>
                (Some ("could not write configuration to file '"
                       +:+ configFile w +:+ "': " +:+ cause),
                 with_trace w
                   (trace w ++ [EvMkdirAll (filepath_Dir (configFile w));
                                EvWriteFile (configFile w) data;
                                EvLog ("Debug: Error writing config to file "
                                       +:+ configFile w +:+ ": " +:+ cause)]))
            | None =>
                (None,
                 with_files
                   (with_trace w
                      (trace w ++ [EvMkdirAll (filepath_Dir (configFile w));
                                   EvWriteFile (configFile w) data]))
                   (<[configFile w := data]> (files w)))
            end
        end
    end.
Proof.
  unfold saveConfig, bind, get. cbn beta.
  destruct (toml_Marshal config) as [data|cause]; [|done].
  unfold os.MkdirAll, os.WriteFile, bind, emit, get, ret, log_Printf, emit.
  unfold with_trace. cbn.
  destruct (mkdir_error w _); cbn; [by rewrite <- !app_assoc|].
  destruct (write_error w _); cbn.
  - by rewrite <- !app_assoc.
  - unfold with_files. cbn. by rewrite <- !app_assoc.
Qed.

(** X8. A load changes nothing of the world but the trace, and all it
    adds to the trace is a look at the file, a read of it and log lines:
    it never makes a directory and never writes. *)
Theorem load_only_looks_and_reads (w : World) :
  exists evs,
    exec loadConfig w = with_trace w (trace w ++ evs)
    /\ Forall is_load_event evs
    /\ Forall (fun e => ~ is_write e) evs.
Proof.
  destruct (loadConfig_frame w) as (evs & Hw & Hevs).
  exists evs. repeat split; try done.
  eapply Forall_impl; [exact Hevs|]. apply is_load_event_not_write.
Qed.

(** X9. A save writes a file only after the map has been marshalled and
    the directory made: any write in its trace is a write of the
    marshalled map to [configFile]. *)
Theorem save_writes_only_after_marshal_and_mkdir
  (config : Config) (path data : string) (w : World) :
  In (EvWriteFile path data) (emitted (saveConfig config) w) ->
  path = configFile w
  /\ toml_Marshal config = Ok data
  /\ mkdir_error w (filepath_Dir (configFile w)) = None
  /\ In (EvMkdirAll (filepath_Dir (configFile w)))
        (emitted (saveConfig config) w).
Proof.
  unfold emitted, exec. rewrite saveConfig_run.
  destruct (toml_Marshal config) as [d|cause]; cbn [snd with_trace with_files trace].
  - destruct (mkdir_error w _); cbn [snd with_trace with_files trace].
    + rewrite drop_app_length. cbn. intros [H|[H|[]]]; discriminate H.
    + destruct (write_error w _); cbn [snd with_trace with_files trace];
        rewrite drop_app_length; cbn.
      * intros [H|[H|[H|[]]]]; try discriminate H.
        injection H as <- <-. auto.
      * intros [H|[H|[]]]; try discriminate H.
        injection H as <- <-. auto.
  - rewrite drop_app_length. cbn. intros [H|[]]. discriminate H.
Qed.

(** X10. A save touches no file but [configFile]: every other path holds
    afterwards what it held before, whether the save succeeds or not. *)
Theorem save_touches_only_the_config_file
  (config : Config) (path : string) (w : World) :
  path <> configFile w ->
  files (exec (saveConfig config) w) !! path = files w !! path
  /\ configFile (exec (saveConfig config) w) = configFile w.
Proof.
  intros Hp. unfold exec. rewrite saveConfig_run.
  destruct (toml_Marshal config); [|done].
  destruct (mkdir_error w _); [done|].
  destruct (write_error w _); [done|].
  cbn. by rewrite lookup_insert_ne.
Qed.

(** X11. A save returns no error exactly when the map marshals, the
    directory can be made and the file can be written; the file then
    holds the marshalled map. *)
Theorem save_succeeds_exactly_when_nothing_fails
  (config : Config) (w : World) :
  (eval (saveConfig config) w = None <->
   exists data,
     toml_Marshal config = Ok data
     /\ mkdir_error w (filepath_Dir (configFile w)) = None
     /\ write_error w (configFile w) = None
     /\ files (exec (saveConfig config) w) !! configFile w = Some data).
Proof.
  unfold eval, exec. rewrite saveConfig_run.
  destruct (toml_Marshal config) as [data|cause].
  - destruct (mkdir_error w _) as [c|].
    + split; [discriminate|]. intros (d & _ & H & _). discriminate H.
    + destruct (write_error w _) as [c|].
      * split; [discriminate|]. intros (d & _ & _ & H & _). discriminate H.
      * split; [|done]. intros _. exists data. cbn.
        by rewrite lookup_insert_eq.
  - split; [discriminate|]. intros (d & H & _). discriminate H.
Qed.

End StoreEffects.

(** ** The commands as operations on the stored map *)

Section StoreCommands.

Context {lib : GoLib}.

Lemma loadConfig_eval_trace (w : World) (t : list Event) :
  eval loadConfig (with_trace w t) = eval loadConfig w.
Proof.
  unfold eval.
  destruct (files w !! configFile w) as [data|] eqn:Hf.
  - destruct (read_error w (configFile w)) as [cause|] eqn:Hr.
    + by rewrite (loadConfig_unreadable w data cause),
        (loadConfig_unreadable (with_trace w t) data cause).
    + rewrite (loadConfig_readable w data), (loadConfig_readable (with_trace w t) data)
        by done.
      by destruct (toml_Unmarshal data).
  - destruct (read_error w (configFile w)) as [cause|] eqn:Hr.
    + by rewrite (loadConfig_inaccessible w cause),
        (loadConfig_inaccessible (with_trace w t) cause).
    + by rewrite (loadConfig_missing w), (loadConfig_missing (with_trace w t)).
Qed.

Lemma loadConfig_stored (w : World) (config : Config) :
  stored w config ->
  exists evs,
    loadConfig w = (Ok config, with_trace w (trace w ++ evs))
    /\ Forall is_load_event evs.
Proof.
  intros Hs. destruct (loadConfig_frame w) as (evs & Hw & Hevs).
  exists evs. split; [|done].
  rewrite (surjective_pairing (loadConfig w)). by f_equal.
Qed.

Lemma stored_written (w : World) (t : list Event) (data : string) (m : Config) :
  read_error w (configFile w) = None ->
  toml_Unmarshal data = Ok m ->
  stored (with_files (with_trace w t) (<[configFile w := data]> (files w))) m.
Proof.
  intros Hr Hu. unfold stored, eval.
  rewrite (loadConfig_readable _ data); cbn.
  - by rewrite Hu.
  - by rewrite lookup_insert_eq.
  - done.
Qed.

Lemma stored_with_trace (w : World) (t : list Event) (m : Config) :
  stored w m -> stored (with_trace w t) m.
Proof. unfold stored. by rewrite loadConfig_eval_trace. Qed.

(** What a successful [handleAddCmd] leaves behind. *)
Lemma add_run (appName appVersion data : string) (config : Config) (w : World) :
  healthy w -> stored w config ->
  toml_Marshal (<[appName := appVersion]> config) = Ok data ->
  exists evs,
    exec (handleAddCmd appName appVersion) w
    = with_files (with_trace w (trace w ++ evs))
                 (<[configFile w := data]> (files w)).
Proof.
  intros (Hr & Hd & Hw) Hs Hm.
  destruct (loadConfig_stored w config Hs) as (evs0 & Hload & _).
  unfold exec, handleAddCmd. unfold bind at 1. rewrite Hload.
  cbv zeta. unfold bind at 1. rewrite saveConfig_run, Hm. cbn.
  rewrite Hd, Hw.
  destruct (config !! appName); unfold PrintSuccess, emit; cbn;
    eexists; unfold with_files, with_trace; cbn; by rewrite <- !app_assoc.
Qed.

(** What [handleRemoveCmd] leaves behind. *)
Lemma remove_run_present
  (appName version data : string) (config : Config) (w : World) :
  healthy w -> stored w config ->
  config !! appName = Some version ->
  toml_Marshal (delete appName config) = Ok data ->
  exists evs,
    exec (handleRemoveCmd appName) w
    = with_files (with_trace w (trace w ++ evs))
                 (<[configFile w := data]> (files w)).
Proof.
  intros (Hr & Hd & Hw) Hs Hin Hm.
  destruct (loadConfig_stored w config Hs) as (evs0 & Hload & _).
  unfold exec, handleRemoveCmd. unfold bind at 1. rewrite Hload, Hin.
  cbv zeta. unfold bind at 1. rewrite saveConfig_run, Hm. cbn.
  rewrite Hd, Hw. unfold removeReport, PrintSuccess, emit. cbn.
  eexists. unfold with_files, with_trace. cbn. by rewrite <- !app_assoc.
Qed.

Lemma remove_run_absent (appName : string) (config : Config) (w : World) :
  stored w config ->
  config !! appName = None ->
  exists evs,
    exec (handleRemoveCmd appName) w = with_trace w (trace w ++ evs).
Proof.
  intros Hs Hin.
  destruct (loadConfig_stored w config Hs) as (evs0 & Hload & _).
  unfold exec, handleRemoveCmd. unfold bind at 1. rewrite Hload, Hin.
  unfold PrintInfo, emit. cbn. eexists. by rewrite <- !app_assoc.
Qed.

(** X12. On a healthy store an add is an insertion: after
    [handleAddCmd name version] the store holds the map it held with
    [name] bound to [version], every other entry as it was. *)
Theorem add_stores_the_version
  (appName appVersion : string) (config : Config) (w : World) :
  healthy w -> stored w config ->
  faithful (<[appName := appVersion]> config) ->
  stored (exec (handleAddCmd appName appVersion) w)
         (<[appName := appVersion]> config).
Proof.
  intros Hh Hs (data & Hm & Hu).
  destruct (add_run appName appVersion data config w Hh Hs Hm) as (evs & ->).
  apply stored_written; [apply Hh | done].
Qed.

(** X13. On a healthy store a remove is a deletion: after
    [handleRemoveCmd name] the store holds the map it held less [name],
    whether [name] was tracked or not. *)
Theorem remove_deletes_from_the_store
  (appName : string) (config : Config) (w : World) :
  healthy w -> stored w config ->
  faithful (delete appName config) ->
  stored (exec (handleRemoveCmd appName) w) (delete appName config).
Proof.
  intros Hh Hs (data & Hm & Hu).
  destruct (config !! appName) as [version|] eqn:Hin.
  - destruct (remove_run_present appName version data config w Hh Hs Hin Hm)
      as (evs & ->).
    apply stored_written; [apply Hh | done].
  - destruct (remove_run_absent appName config w Hs Hin) as (evs & ->).
    rewrite delete_id by done. by apply stored_with_trace.
Qed.

(** X14. On a healthy store, where no file operation fails, and for
    maps the format gives back from its own output (the loaded map and
    the map with the new entry), adding an identifier that was not
    tracked and removing it again gives the store back as it was. *)
Theorem add_then_remove_restores_the_store
  (appName appVersion : string) (config : Config) (w : World) :
  healthy w -> stored w config ->
  config !! appName = None ->
  faithful (<[appName := appVersion]> config) ->
  faithful config ->
  stored (exec (handleRemoveCmd appName)
               (exec (handleAddCmd appName appVersion) w))
         config.
Proof.
  intros Hh Hs Hnew (data & Hm & Hu) (data' & Hm' & Hu').
  destruct (add_run appName appVersion data config w Hh Hs Hm) as (evs & ->).
  set (w1 := with_files _ _).
  assert (healthy w1) as Hh1 by exact Hh.
  assert (stored w1 (<[appName := appVersion]> config)) as Hs1
      by (apply stored_written; [apply Hh | done]).
  assert (delete appName (<[appName := appVersion]> config) = config) as Hdel
      by (by apply delete_insert_id).
  destruct (remove_run_present appName appVersion data'
              (<[appName := appVersion]> config) w1 Hh1 Hs1)
    as (evs' & ->).
  - apply lookup_insert_eq.
  - by rewrite Hdel.
  - apply (stored_written w1); [apply Hh | done].
Qed.

(** X15. On a healthy store, where no file operation fails, and for
    maps the format gives back from its own output (the loaded map with
    the first version and with the second), of two adds of the same
    identifier the second wins: the store holds the second version, as
    if the first add had not been made. *)
Theorem second_add_replaces_the_first
  (appName first second : string) (config : Config) (w : World) :
  healthy w -> stored w config ->
  faithful (<[appName := first]> config) ->
  faithful (<[appName := second]> config) ->
  stored (exec (handleAddCmd appName second)
               (exec (handleAddCmd appName first) w))
         (<[appName := second]> config).
Proof.
  intros Hh Hs (data & Hm & Hu) (data' & Hm' & Hu').
  destruct (add_run appName first data config w Hh Hs Hm) as (evs & ->).
  set (w1 := with_files _ _).
  assert (healthy w1) as Hh1 by exact Hh.
  assert (stored w1 (<[appName := first]> config)) as Hs1
      by (apply stored_written; [apply Hh | done]).
  destruct (add_run appName second data' (<[appName := first]> config) w1 Hh1 Hs1)
    as (evs' & ->).
  - by rewrite insert_insert_eq.
  - apply (stored_written w1); [apply Hh | done].
Qed.

End StoreCommands.

Lemma save_writes_only_after_marshal_and_mkdir_witness :
  let w := Sample.machine "cfg/versions.toml" (fun _ => TransportError "unused") in
  "cfg/versions.toml" = configFile w
  /\ toml_Marshal Sample.batch = Ok Sample.batch_file
  /\ mkdir_error w (filepath_Dir (configFile w)) = None
  /\ In (EvMkdirAll (filepath_Dir (configFile w)))
        (emitted (saveConfig Sample.batch) w).
Proof.
  intros w.
  apply (save_writes_only_after_marshal_and_mkdir Sample.batch
           "cfg/versions.toml" Sample.batch_file w).
  vm_compute. right. left. reflexivity.
Defined.

Lemma add_stores_the_version_witness :
  stored (exec (handleAddCmd "owner/new" "3.1") Sample.batch_machine)
         (<["owner/new" := "3.1"]> Sample.batch).
Proof.
  apply add_stores_the_version.
  - repeat split.
  - vm_compute. reflexivity.
  - eexists. split; vm_compute; reflexivity.
Defined.

Lemma remove_deletes_from_the_store_witness :
  stored (exec (handleRemoveCmd "owner/appB") Sample.batch_machine)
         (delete "owner/appB" Sample.batch).
Proof.
  apply remove_deletes_from_the_store.
  - repeat split.
  - vm_compute. reflexivity.
  - eexists. split; vm_compute; reflexivity.
Defined.

Lemma add_then_remove_restores_the_store_witness :
  stored (exec (handleRemoveCmd "owner/new")
               (exec (handleAddCmd "owner/new" "3.1") Sample.batch_machine))
         Sample.batch.
Proof.
  apply add_then_remove_restores_the_store.
  - repeat split.
  - vm_compute. reflexivity.
  - vm_compute. reflexivity.
  - eexists. split; vm_compute; reflexivity.
  - eexists. split; vm_compute; reflexivity.
Defined.

Lemma second_add_replaces_the_first_witness :
  stored (exec (handleAddCmd "owner/appA" "1.0.2")
               (exec (handleAddCmd "owner/appA" "1.0.1") Sample.batch_machine))
         (<["owner/appA" := "1.0.2"]> Sample.batch).
Proof.
  apply second_add_replaces_the_first.
  - repeat split.
  - vm_compute. reflexivity.
  - eexists. split; vm_compute; reflexivity.
  - eexists. split; vm_compute; reflexivity.
Defined.

(** ** The commands at the edges: failed load, empty store, one name *)

Section CommandEdges.

Context {lib : GoLib}.
Variable lookup : string -> string -> M (result string).

(** X16. When the load fails, every command stops at once with the
    error on the terminal: the world after it is the world after the
    load with that one line added, so nothing is saved, nothing is
    looked up and the file that could not be loaded is not overwritten. *)
Theorem failed_load_stops_every_command
  (cause appName appVersion specificApp : string) (w w1 : World) :
  loadConfig w = (Err cause, w1) ->
  let stop := PrintError ("Could not load configuration: " +:+ cause) w1 in
  files w1 = files w
  /\ handleAddCmd appName appVersion w = stop
  /\ handleRemoveCmd appName w = stop
  /\ handleListCmd w = stop
  /\ handleCheckCmd lookup specificApp w = stop.
Proof.
  intros Hload stop. split.
  - destruct (loadConfig_frame w) as (evs & Hw & _).
    unfold exec in Hw. rewrite Hload in Hw. cbn in Hw. by subst w1.
  - unfold handleAddCmd, handleRemoveCmd, handleListCmd, handleCheckCmd, bind.
    by rewrite Hload.
Qed.

(** X17. On a store without entries the listing and the check, with a
    name or without, print one information line and nothing else: no
    header, no lookup, and for a named check no complaint that the name
    is not tracked. *)
Theorem empty_store_only_informs (specificApp : string) (w w1 : World) :
  loadConfig w = (Ok ∅, w1) ->
  handleListCmd w
  = PrintInfo "No applications currently managed. Use the 'add' command to add some." w1
  /\ handleCheckCmd lookup specificApp w
     = PrintInfo "No applications currently managed. Use 'add' command to add some." w1.
Proof.
  intros Hload. unfold handleListCmd, handleCheckCmd, bind.
  rewrite Hload. by rewrite map_size_empty.
Qed.

(** X18. An identifier without [/] is skipped without a lookup: whatever
    the lookup function would do, it is not called, and the skip notice
    is the only thing added to the trace. *)
Theorem skipped_identifier_is_not_looked_up
  (appName currentVersion : string) (w : World) :
  slashes appName = 0 ->
  checkAppVersion lookup appName currentVersion w
  = (tt, with_trace w (trace w ++ [EvStdout (skipLine appName)])).
Proof.
  intros H%slashes_zero. unfold checkAppVersion.
  by rewrite (proj2 (Contains_slash_false _) H).
Qed.

(** X19. When the lookup of a checked identifier fails, the check ends
    the line it had begun and reports the failure, with the text of the
    error, on standard error; no verdict is printed and the recorded
    version plays no part. *)
Theorem failed_lookup_is_reported_without_verdict
  (appName currentVersion cause : string) (w w' : World) :
  1 <= slashes appName ->
  lookup appName "" (with_trace w (trace w ++ [EvStdout (checkingLine appName)]))
  = (Err cause, w') ->
  exec (checkAppVersion lookup appName currentVersion) w
  = with_trace w'
      (trace w' ++ [EvStdout nl;
                    EvStderr (colorRedFg +:+ "Error: "
                              +:+ ("Failed to check "
                                   +:+ Colorize appName colorMagentaFg
                                   +:+ ": " +:+ cause)
                              +:+ colorReset +:+ nl)]).
Proof.
  intros Hid Hlook. unfold exec, checkAppVersion.
  rewrite (proj2 (Contains_slash _) (proj1 (slashes_pos _) Hid)).
  cbn [negb]. unfold bind at 1, emit at 1. unfold bind at 1.
  fold (checkingLine appName). rewrite Hlook.
  unfold bind, PrintError, emit, with_trace. cbn. by rewrite <- app_assoc.
Qed.

(** X20. A check of a name that is not in a store with entries reports
    the name as not found on standard error and looks nothing up. *)
Theorem check_of_untracked_name_looks_nothing_up
  (specificApp : string) (config : Config) (w w1 : World) :
  loadConfig w = (Ok config, w1) ->
  config <> ∅ ->
  specificApp <> "" ->
  config !! specificApp = None ->
  handleCheckCmd lookup specificApp w
  = PrintError ("Application '" +:+ Colorize specificApp colorYellowFg
                +:+ "' not found in your managed list.") w1.
Proof.
  intros Hload Hne Hname Hin. unfold handleCheckCmd, bind. rewrite Hload.
  destruct (Nat.eqb_spec (size config) 0) as [H%map_size_empty_iff|_]; [done|].
  by rewrite (proj2 (eq_false _ _) Hname), Hin.
Qed.

End CommandEdges.

(** ** What a check adds to the trace *)

Section Frames.

Lemma only_adds_ret {A} (P : Event -> Prop) (a : A) : only_adds P (ret a).
Proof. intros w. exists []. split; [by rewrite with_trace_id | constructor]. Qed.

Lemma only_adds_emit (P : Event -> Prop) (e : Event) : P e -> only_adds P (emit e).
Proof. intros He w. exists [e]. split; [done | by constructor]. Qed.

Lemma only_adds_get {A} (P : Event -> Prop) (f : World -> A) : only_adds P (get f).
Proof. intros w. exists []. split; [by rewrite with_trace_id | constructor]. Qed.

Lemma only_adds_bind {A B} (P : Event -> Prop) (m : M A) (k : A -> M B) :
  only_adds P m -> (forall a, only_adds P (k a)) -> only_adds P (bind m k).
Proof.
  intros Hm Hk w. destruct (Hm w) as (evs1 & Hw1 & H1).
  unfold exec, bind in *. destruct (m w) as [a w1]. cbn in Hw1. subst w1.
  destruct (Hk a (with_trace w (trace w ++ evs1))) as (evs2 & Hw2 & H2).
  unfold exec in Hw2. rewrite Hw2. exists (evs1 ++ evs2). split.
  - unfold with_trace. cbn. by rewrite <- app_assoc.
  - by apply Forall_app.
Qed.

Lemma only_adds_weaken {A} (P Q : Event -> Prop) (m : M A) :
  (forall e, P e -> Q e) -> only_adds P m -> only_adds Q m.
Proof.
  intros HPQ Hm w. destruct (Hm w) as (evs & Hw & H).
  exists evs. split; [done|]. by eapply Forall_impl.
Qed.

Lemma only_adds_for_each {A} (P : Event -> Prop) (body : A -> M unit) (xs : list A) :
  (forall x, only_adds P (body x)) -> only_adds P (for_each body xs).
Proof.
  intros Hbody. induction xs as [|x xs IH]; simpl.
  - apply only_adds_ret.
  - apply only_adds_bind; [apply Hbody | done].
Qed.

Lemma only_adds_files {A} (P : Event -> Prop) (m : M A) (w : World) :
  only_adds P m -> files (exec m w) = files w.
Proof. intros Hm. by destruct (Hm w) as (evs & -> & _). Qed.

Lemma only_adds_emitted {A} (P : Event -> Prop) (m : M A) (w : World) :
  only_adds P m -> Forall P (emitted m w).
Proof.
  intros Hm. destruct (Hm w) as (evs & Hw & H).
  unfold emitted. rewrite Hw. cbn. by rewrite drop_app_length.
Qed.

End Frames.

Section ReadOnly.

Context {lib : GoLib}.
Variable lookup : string -> string -> M (result string).
Hypothesis lookup_network_only : network_only lookup.

Lemma only_adds_load : only_adds is_load_event loadConfig.
Proof. exact loadConfig_frame. Qed.

Lemma only_adds_checkAppVersion (appName currentVersion : string) :
  only_adds (fun e => is_console e \/ is_http e)
            (checkAppVersion lookup appName currentVersion).
Proof.
  unfold checkAppVersion.
  destruct (negb (GoString.Contains appName "/")).
  - apply only_adds_emit. by left.
  - apply only_adds_bind; [apply only_adds_emit; by left|]. intros _.
    apply only_adds_bind.
    + eapply only_adds_weaken; [|exact (lookup_network_only appName "")].
      by right.
    + intros [latestVersion|err].
      * destruct (GoString.eq latestVersion currentVersion);
          [apply only_adds_emit; by left|].
        cbv zeta. destruct (GoString.gt latestVersion currentVersion);
          apply only_adds_emit; by left.
      * apply only_adds_bind; [apply only_adds_emit; by left|]. intros _.
        apply only_adds_emit. by left.
Qed.

(** X21. A check, of one name or of all, and a listing only read the
    store: the world after them is the world before but for the trace,
    to which they add nothing except the look at and the read of the
    file, log lines, terminal output and, for a check, requests.  No
    directory is made and no file is written. *)
Theorem check_and_list_only_read (specificApp : string) :
  only_adds (fun e => is_load_event e \/ is_console e \/ is_http e)
            (handleCheckCmd lookup specificApp)
  /\ only_adds (fun e => is_load_event e \/ is_console e) handleListCmd.
Proof.
  split.
  - unfold handleCheckCmd. apply only_adds_bind.
    + eapply only_adds_weaken; [|apply only_adds_load]. by left.
    + intros [config|err]; [|apply only_adds_emit; right; by left].
      destruct (Nat.eqb (size config) 0); [apply only_adds_emit; right; by left|].
      destruct (negb (GoString.eq specificApp "")).
      * destruct (config !! specificApp) as [currentVersion|].
        -- eapply only_adds_weaken; [|apply only_adds_checkAppVersion].
           intros e [?|?]; auto.
        -- apply only_adds_emit. right. by left.
      * apply only_adds_bind; [apply only_adds_emit; right; by left|]. intros _.
        apply only_adds_bind; [apply only_adds_get|]. intros order.
        apply only_adds_for_each. intros kv.
        eapply only_adds_weaken; [|apply only_adds_checkAppVersion].
        intros e [?|?]; auto.
  - unfold handleListCmd. apply only_adds_bind.
    + eapply only_adds_weaken; [|apply only_adds_load]. by left.
    + intros [config|err]; [|apply only_adds_emit; by right].
      destruct (Nat.eqb (size config) 0); [apply only_adds_emit; by right|].
      apply only_adds_bind; [apply only_adds_emit; by right|]. intros _.
      apply only_adds_bind; [apply only_adds_get|]. intros order.
      apply only_adds_for_each. intros appName.
      apply only_adds_emit. by right.
Qed.

(** A check of one tracked name opens the check of that name, once, and
    of no other entry of the store. *)
Lemma named_check_starts
  (specificApp version : string) (config : Config) (w w1 : World) :
  loadConfig w = (Ok config, w1) ->
  specificApp <> "" ->
  config !! specificApp = Some version ->
  forall a,
    starts a (emitted (handleCheckCmd lookup specificApp) w)
    = if decide (a = specificApp) then 1 else 0.
Proof.
  intros Hload Hname Hin a.
  destruct (loadConfig_frame w) as (evs0 & Hw1 & Hevs0).
  unfold exec in Hw1. rewrite Hload in Hw1. cbn in Hw1. subst w1.
  destruct (checkAppVersion_trace lookup lookup_network_only specificApp version
              (with_trace w (trace w ++ evs0))) as (evs & Hrun & Hcount).
  assert (exec (handleCheckCmd lookup specificApp) w
          = with_trace w (trace w ++ evs0 ++ evs)) as Hexec.
  { unfold exec, handleCheckCmd. unfold bind at 1. rewrite Hload.
    destruct (Nat.eqb_spec (size config) 0) as [H%map_size_empty_iff|_].
    { subst config. by rewrite lookup_empty in Hin. }
    rewrite (proj2 (eq_false _ _) Hname), Hin. cbn [negb].
    unfold exec in Hrun. rewrite Hrun. unfold with_trace. cbn.
    by rewrite <- app_assoc. }
  unfold emitted. rewrite Hexec. cbn [trace with_trace].
  rewrite drop_app_length, starts_app, Hcount.
  rewrite (starts_none a evs0); [done|].
  eapply Forall_impl; [exact Hevs0|]. intros e. apply is_load_event_not_start.
Qed.

End ReadOnly.

(** ** The requests of a check of all entries *)

Section Requests.

Context {lib : GoLib}.

Lemma EvHttp_url m u h m' u' h' : EvHttp m u h = EvHttp m' u' h' -> u = u'.
Proof. by intros [= _ -> _]. Qed.

Lemma releaseRequest_inj a b : releaseRequest a "" = releaseRequest b "" -> a = b.
Proof.
  intros H%EvHttp_url. unfold releaseURL in H.
  do 2 apply (inj (String.append _)) in H.
  by apply append_inj_r in H.
Qed.

Lemma occurrences_app e evs evs' :
  occurrences e (evs ++ evs') = occurrences e evs + occurrences e evs'.
Proof. unfold occurrences. by rewrite filter_app, length_app. Qed.

Lemma occurrences_console b evs :
  Forall is_console evs -> occurrences (releaseRequest b "") evs = 0.
Proof.
  unfold occurrences. induction 1 as [|e evs He _ IH]; [done|].
  rewrite filter_cons_False; [done|]. intros ->. exact He.
Qed.

(** What [checkAppVersion] does once the lookup has returned. *)
Lemma check_after_lookup
  (lookup : string -> string -> M (result string))
  (appName currentVersion : string) (r : result string) (w w' : World) :
  1 <= slashes appName ->
  lookup appName "" (with_trace w (trace w ++ [EvStdout (checkingLine appName)]))
  = (r, w') ->
  exists tail,
    exec (checkAppVersion lookup appName currentVersion) w
    = with_trace w' (trace w' ++ tail)
    /\ Forall is_console tail.
Proof.
  intros Hid Hlook. unfold exec, checkAppVersion.
  rewrite (proj2 (Contains_slash _) (proj1 (slashes_pos _) Hid)).
  cbn [negb]. unfold bind at 1, emit at 1. unfold bind at 1.
  fold (checkingLine appName). rewrite Hlook.
  destruct r as [latestVersion|err].
  - destruct (GoString.eq latestVersion currentVersion);
      [|cbv zeta; destruct (GoString.gt latestVersion currentVersion)];
      unfold emit; cbn; eexists; (split; [done|]); by repeat constructor.
  - unfold bind, PrintError, emit, with_trace. cbn. eexists.
    rewrite <- app_assoc. split; [done|]. by repeat constructor.
Qed.

(** One call of [checkAppVersion] with the real lookup sends the request
    of its identifier once if it is checkable, and no other request. *)
Lemma checkAppVersion_requests (appName currentVersion : string) (w : World) :
  exists evs,
    exec (checkAppVersion getLatestVersionGitHubImpl appName currentVersion) w
    = with_trace w (trace w ++ evs)
    /\ forall b,
         occurrences (releaseRequest b "") evs
         = if decide (b = appName /\ checkable appName) then 1 else 0.
Proof.
  destruct (slashes appName) as [|n] eqn:Hn.
  { exists [EvStdout (skipLine appName)]. split.
    - unfold exec, checkAppVersion.
      by rewrite (proj2 (Contains_slash_false _) (proj1 (slashes_zero _) Hn)).
    - intros b. rewrite decide_False; [done|].
      unfold checkable. rewrite Hn. intros (_ & H & _). lia. }
  assert (1 <= slashes appName) as Hid by lia.
  set (w0 := with_trace w (trace w ++ [EvStdout (checkingLine appName)])).
  destruct (http_NewRequest "GET" (releaseURL appName "")) as [cause|] eqn:Hreq.
  - destruct (check_after_lookup getLatestVersionGitHubImpl appName currentVersion
                _ w w0 Hid (lookup_unbuilt appName "" cause w0 Hid Hreq))
      as (tail & Hrun & Htail).
    exists (EvStdout (checkingLine appName) :: tail). split.
    + rewrite Hrun. unfold w0, with_trace. cbn. by rewrite <- app_assoc.
    + intros b. rewrite decide_False.
      * apply occurrences_console. by constructor.
      * unfold checkable. rewrite Hreq. intros (_ & _ & H). discriminate H.
  - destruct (check_after_lookup getLatestVersionGitHubImpl appName currentVersion
                (eval (getLatestVersionGitHubImpl appName "") w0) w
                (exec (getLatestVersionGitHubImpl appName "") w0) Hid)
      as (tail & Hrun & Htail).
    { fold w0. unfold eval, exec. by destruct (getLatestVersionGitHubImpl _ _ _). }
    rewrite lookup_world in Hrun by done.
    exists (EvStdout (checkingLine appName) :: releaseRequest appName "" :: tail).
    split.
    + rewrite Hrun. unfold w0, with_trace. cbn. by rewrite <- !app_assoc.
    + intros b.
      change (EvStdout (checkingLine appName) :: releaseRequest appName "" :: tail)
        with ([EvStdout (checkingLine appName)]
                ++ [releaseRequest appName ""] ++ tail).
      rewrite !occurrences_app, (occurrences_console b tail) by done.
      rewrite (occurrences_console b [EvStdout _]) by (by constructor).
      unfold occurrences. case_decide as Hb.
      * destruct Hb as [-> _]. by rewrite filter_cons_True.
      * rewrite filter_cons_False; [done|].
        intros H%releaseRequest_inj. apply Hb. split; [done|].
        by split.
Qed.

Lemma for_each_requests (entries : list (string * string)) (w : World) :
  NoDup entries.*1 ->
  exists evs,
    exec (for_each (fun kv => checkAppVersion getLatestVersionGitHubImpl kv.1 kv.2)
                   entries) w
    = with_trace w (trace w ++ evs)
    /\ forall b,
         occurrences (releaseRequest b "") evs
         = if decide (b ∈ entries.*1 /\ checkable b) then 1 else 0.
Proof.
  revert w. induction entries as [|[k v] entries IH]; intros w Hnodup.
  - exists []. split; [by rewrite with_trace_id|].
    intros b. rewrite decide_False; [done|].
    intros [H _]. by apply elem_of_nil in H.
  - rewrite fmap_cons in Hnodup. apply NoDup_cons in Hnodup as [Hk Hnodup].
    change ((k, v).1) with k in Hk. simpl for_each. rewrite exec_then.
    destruct (checkAppVersion_requests k v w) as (evs1 & -> & H1).
    destruct (IH (with_trace w (trace w ++ evs1)) Hnodup) as (evs2 & -> & H2).
    exists (evs1 ++ evs2). split.
    + unfold with_trace. cbn. by rewrite <- app_assoc.
    + intros b. rewrite occurrences_app, H1, H2, fmap_cons.
      change ((k, v).1) with k.
      destruct (decide (b = k /\ checkable k)) as [[Hbk Hck]|H1'];
        destruct (decide (b ∈ entries.*1 /\ checkable b)) as [[Hin Hcb]|H2'];
        destruct (decide (b ∈ k :: entries.*1 /\ checkable b)) as [[Hc Hcc]|H3'];
        try done.
      * subst b. done.
      * subst b. done.
      * exfalso. apply H3'. subst b. split; [by left | done].
      * exfalso. apply H3'. split; [by right | done].
      * exfalso. apply elem_of_cons in Hc as [->|Hc].
        -- apply H1'. by split.
        -- apply H2'. by split.
Qed.

(** X23. A check of all entries with the real lookup sends, for every
    tracked identifier, exactly one request if the identifier has a [/]
    and its request can be built, and none otherwise; the request goes
    to the public API root. *)
Theorem check_all_sends_one_request_per_checkable_identifier
  (config : Config) (w w1 : World) :
  loadConfig w = (Ok config, w1) ->
  range_order w config ≡ₚ map_to_list config ->
  forall appName version,
    config !! appName = Some version ->
    occurrences (releaseRequest appName "")
                (emitted (handleCheckCmd getLatestVersionGitHubImpl "") w)
    = if decide (checkable appName) then 1 else 0.
Proof.
  intros Hload Horder appName version Hin.
  destruct (loadConfig_frame w) as (evs0 & Hw1 & Hevs0).
  unfold exec in Hw1. rewrite Hload in Hw1. simpl in Hw1. subst w1.
  assert (NoDup (range_order w config).*1) as Hnodup.
  { rewrite Horder. apply NoDup_fst_map_to_list. }
  assert (appName ∈ (range_order w config).*1) as Hmem.
  { rewrite Horder. apply list_elem_of_fmap. exists (appName, version).
    split; [done|]. by apply elem_of_map_to_list. }
  set (header := EvStdout (colorFgDefault
                           +:+ (colorBlueFg
                                +:+ "Checking all managed applications for updates..."
                                +:+ colorReset)
                           +:+ colorReset +:+ nl)).
  set (w2 := with_trace w ((trace w ++ evs0) ++ [header])).
  destruct (for_each_requests (range_order w config) w2 Hnodup)
    as (evs & Hloop & Hcount).
  assert (exec (handleCheckCmd getLatestVersionGitHubImpl "") w
          = with_trace w2 (trace w2 ++ evs)) as Hrun.
  { unfold exec, handleCheckCmd. unfold bind at 1. rewrite Hload.
    destruct (Nat.eqb_spec (size config) 0) as [H%map_size_empty_iff|_].
    { subst config. by rewrite lookup_empty in Hin. }
    cbn [negb GoString.eq String.eqb].
    rewrite <- Hloop. unfold exec, PrintMessage, bind, emit, get. reflexivity. }
  unfold emitted. rewrite Hrun. subst w2. cbn [trace with_trace].
  rewrite <- !app_assoc, drop_app_length, !occurrences_app, Hcount.
  assert (occurrences (releaseRequest appName "") evs0 = 0) as ->.
  { unfold occurrences. clear -Hevs0.
    induction Hevs0 as [|e evs0 He _ IH]; [done|].
    rewrite filter_cons_False; [done|]. intros ->. exact He. }
  rewrite (occurrences_console appName [header]) by (by repeat constructor).
  destruct (decide (checkable appName)) as [Hc|Hc].
  - by rewrite decide_True.
  - rewrite decide_False; [done|]. by intros [_ ?].
Qed.

End Requests.

(** ** The listing *)

Section Listing.

Context {lib : GoLib}.

Lemma lex_lt_trans a b c : lex_lt a b -> lex_lt b c -> lex_lt a c.
Proof.
  intros Hab. revert c. induction Hab as [x s|x y s t Hxy|x s t Hst IH]; intros c Hbc.
  - inversion Hbc; subst; constructor.
  - inversion Hbc; subst.
    + constructor. by etrans.
    + by constructor.
  - inversion Hbc; subst.
    + by constructor.
    + apply lex_lt_tail. by apply IH.
Qed.

Lemma not_above_iff a b : not_above a b <-> ~ lex_lt b a.
Proof.
  unfold not_above. rewrite <- gt_true.
  destruct (GoString.gt a b); split; done.
Qed.

Lemma lex_lt_total a b : lex_lt a b \/ a = b \/ lex_lt b a.
Proof.
  destruct (GoString.cmp a b) eqn:C.
  - right. left. by apply cmp_Eq.
  - left. by apply cmp_Lt.
  - right. right. by apply cmp_Gt.
Qed.

#[local] Instance not_above_total : Total not_above.
Proof.
  intros a b. destruct (lex_lt_total a b) as [H|[->|H]].
  - left. apply not_above_iff. by apply lex_lt_asym.
  - left. apply not_above_iff. apply lex_lt_irrefl.
  - right. apply not_above_iff. by apply lex_lt_asym.
Qed.

#[local] Instance not_above_trans : Transitive not_above.
Proof.
  intros a b c Hab%not_above_iff Hbc%not_above_iff. apply not_above_iff.
  intros Hca. destruct (lex_lt_total a b) as [H|[->|H]].
  - apply Hbc. by apply (lex_lt_trans c a b).
  - by apply Hbc.
  - by apply Hab.
Qed.

Lemma sorted_names_strict (names : list string) :
  StronglySorted not_above names -> NoDup names -> StronglySorted lex_lt names.
Proof.
  induction 1 as [|x names Hs IH Hx]; intros Hnd; [constructor|].
  apply NoDup_cons in Hnd as [Hnotin Hnd]. constructor; [by apply IH|].
  apply Forall_forall. intros y Hy.
  assert (not_above x y) as Hxy%not_above_iff
      by (by eapply (proj1 (Forall_forall _ _) Hx)).
  destruct (lex_lt_total x y) as [H|[->|H]]; done.
Qed.

Lemma for_each_emit {A} (f : A -> Event) (xs : list A) (w : World) :
  for_each (fun x => emit (f x)) xs w = (tt, with_trace w (trace w ++ (f <$> xs))).
Proof.
  revert w. induction xs as [|x xs IH]; intros w; simpl.
  - unfold ret. by rewrite with_trace_id.
  - unfold bind at 1, emit at 1. rewrite IH. unfold with_trace. cbn.
    by rewrite <- app_assoc.
Qed.

Lemma entries_of_keys (config : Config) (l : list (string * string)) :
  Forall (fun kv => config !! kv.1 = Some kv.2) l ->
  (fun a => (a, default EmptyString (config !! a))) <$> l.*1 = l.
Proof.
  induction 1 as [|[k v] l Hkv _ IH]; [done|].
  cbn in *. rewrite Hkv. cbn. by f_equal.
Qed.

(** X24. The listing of a store with entries prints the header and then
    one line per entry, each with the identifier and the version the
    store holds for it, in strictly increasing byte-wise order of the
    identifiers, in whatever order [range] walks the map. *)
Theorem listing_shows_every_entry_in_key_order (config : Config) (w w1 : World) :
  loadConfig w = (Ok config, w1) ->
  config <> ∅ ->
  range_order w config ≡ₚ map_to_list config ->
  exists entries : list (string * string),
    entries ≡ₚ map_to_list config
    /\ StronglySorted lex_lt entries.*1
    /\ exec handleListCmd w
       = with_trace w1
           (trace w1
            ++ EvStdout (colorBold +:+ colorBlueFg +:+ "== "
                         +:+ "Managed Applications" +:+ " =="
                         +:+ colorReset +:+ nl)
            :: ((fun kv => EvStdout (listLine kv.1 kv.2)) <$> entries)).
Proof.
  intros Hload Hne Horder.
  destruct (loadConfig_frame w) as (evs0 & Hw1 & _).
  unfold exec in Hw1. rewrite Hload in Hw1. cbn in Hw1. subst w1.
  set (names := sort_Strings (range_order w config).*1).
  set (entry := fun a : string => (a, default EmptyString (config !! a))).
  assert (names ≡ₚ (map_to_list config).*1) as Hperm.
  { unfold names, sort_Strings. by rewrite merge_sort_Permutation, Horder. }
  assert (entry <$> names ≡ₚ map_to_list config) as Hentries.
  { rewrite Hperm. unfold entry. rewrite entries_of_keys; [done|].
    apply Forall_forall. intros [k v] Hkv.
    by apply elem_of_map_to_list. }
  assert ((entry <$> names).*1 = names) as Hkeys.
  { rewrite <- list_fmap_compose. by rewrite list_fmap_id. }
  exists (entry <$> names). split; [done|]. split.
  - rewrite Hkeys. apply sorted_names_strict.
    + apply (StronglySorted_merge_sort not_above).
    + rewrite Hperm. apply NoDup_fst_map_to_list.
  - unfold exec, handleListCmd. unfold bind at 1. rewrite Hload.
    destruct (Nat.eqb_spec (size config) 0) as [H%map_size_empty_iff|_]; [done|].
    unfold bind at 1, PrintHeader, emit at 1. unfold bind at 1, get.
    cbn [range_order with_trace]. fold names.
    unfold PrintMessage. rewrite for_each_emit. cbn.
    rewrite <- list_fmap_compose. unfold with_trace. cbn.
    by rewrite <- app_assoc.
Qed.

End Listing.

(** ** The dispatcher *)

Section Main.

Context {lib : GoLib}.
Variable lookup : string -> string -> M (result string).
Variable flag_Parse : M unit -> list string -> M Parsed.

Ltac console :=
  repeat first
    [ apply only_adds_bind; [|intros _]
    | apply only_adds_emit; exact I
    | apply only_adds_ret ].

Lemma eval_then {A B} (m : M A) (k : M B) (w : World) :
  eval (m ;; k) w = eval k (exec m w).
Proof. unfold eval, exec, bind. by destruct (m w). Qed.

Lemma console_printOverallUsage arg0 : only_adds is_console (printOverallUsage arg0).
Proof. unfold printOverallUsage, PrintUsageMessage, PrintMessage. console. Qed.

Lemma console_usageOf command arg0 : only_adds is_console (usageOf command arg0).
Proof.
  unfold usageOf, addUsage, removeUsage, listUsage, checkUsage, PrintUsageMessage.
  repeat destruct (String.eqb command _); console.
Qed.

Lemma in_commands command :
  command ∈ commands ->
  command = "add" \/ command = "remove" \/ command = "list" \/ command = "check".
Proof.
  unfold commands. rewrite !elem_of_cons, elem_of_nil. tauto.
Qed.

(** X25. Without a command, or with a word that is none of the four
    commands, [main] ends with status 1, and all it has done is write to
    the terminal: the store is not loaded and nothing is looked up. *)
Theorem missing_or_unknown_command_exits_1
  (arg0 : string) (args : list string) (w : World) :
  (forall command, head args = Some command -> command ∉ commands) ->
  eval (main lookup flag_Parse arg0 args) w = 1%Z
  /\ exists evs,
       exec (main lookup flag_Parse arg0 args) w = with_trace w (trace w ++ evs)
       /\ Forall is_console evs.
Proof.
  intros Hunknown. destruct args as [|command rest].
  - unfold main. split.
    + by rewrite eval_then.
    + apply only_adds_bind; [apply console_printOverallUsage|].
      intros _. apply only_adds_ret.
  - specialize (Hunknown command eq_refl). unfold commands in Hunknown.
    rewrite !not_elem_of_cons in Hunknown.
    destruct Hunknown as (H1 & H2 & H3 & H4 & _).
    unfold main, GoString.eq.
    rewrite (proj2 (String.eqb_neq _ _) H1), (proj2 (String.eqb_neq _ _) H2),
      (proj2 (String.eqb_neq _ _) H3), (proj2 (String.eqb_neq _ _) H4).
    split.
    + by rewrite !eval_then.
    + apply only_adds_bind; [apply only_adds_emit; exact I|]. intros _.
      apply only_adds_bind; [apply console_printOverallUsage|].
      intros _. apply only_adds_ret.
Qed.

(** X26. When the flag parser ends the process, as it does for a help
    flag or an unknown flag, [main] ends with the status the parser gave
    and runs no handler. *)
Theorem parser_exit_is_the_exit
  (command arg0 : string) (rest : list string) (code : Z) (w w' : World) :
  command ∈ commands ->
  flag_Parse (usageOf command arg0) rest w = (Exited code, w') ->
  main lookup flag_Parse arg0 (command :: rest) w = (code, w').
Proof.
  intros Hc Hparse.
  destruct (in_commands command Hc) as [-> | [-> | [-> | ->]]];
    cbn in Hparse; unfold main; cbn [GoString.eq String.eqb Ascii.eqb Bool.eqb];
    unfold bind at 1; by rewrite Hparse.
Qed.

Lemma stop_after (m k : M unit) (a : Z) (w : World) :
  (m ;; k ;; ret a) w = (a, exec (m ;; k) w).
Proof.
  unfold exec, bind, ret. destruct (m w) as [[] w1]. by destruct (k w1).
Qed.

(** X27. A command given a number of positional arguments it does not
    take (fewer than two for add, none for remove, any for list, more
    than one for check) makes [main] print the error of that command on
    standard error, then the usage of the command, and end with status
    1: what [main] leaves is exactly the world after the parser with
    those lines added.  The handler is not run, so the store is neither
    loaded nor changed. *)
Theorem wrong_argument_count_exits_1
  (command arg0 : string) (rest positional : list string) (w w' : World) :
  command ∈ commands ->
  flag_Parse (usageOf command arg0) rest w = (Positional positional, w') ->
  ~ takes command (length positional) ->
  main lookup flag_Parse arg0 (command :: rest) w
  = (1%Z, exec (usageOf command arg0)
               (with_trace w'
                  (trace w' ++ [EvStderr (colorRedFg +:+ "Error: "
                                          +:+ countError command
                                          +:+ colorReset +:+ nl)])))
  /\ eval (main lookup flag_Parse arg0 (command :: rest)) w = 1%Z
  /\ exists evs,
       exec (main lookup flag_Parse arg0 (command :: rest)) w
       = with_trace w' (trace w' ++ evs)
       /\ Forall is_console evs.
Proof.
  intros Hc Hparse Hcount.
  assert (main lookup flag_Parse arg0 (command :: rest) w
          = (PrintError (countError command) ;; usageOf command arg0 ;; ret 1%Z) w')
    as Hmain.
  { unfold takes in Hcount.
    destruct (in_commands command Hc) as [-> | [-> | [-> | ->]]];
      cbn in Hparse; unfold main;
      cbn [GoString.eq String.eqb Ascii.eqb Bool.eqb];
      unfold bind at 1; rewrite Hparse.
    - destruct (Nat.ltb_spec (length positional) 2) as [_|Hlen]; [done|].
      exfalso. apply Hcount. left. by split.
    - destruct (Nat.ltb_spec (length positional) 1) as [_|Hlen]; [done|].
      exfalso. apply Hcount. right. left. by split.
    - destruct (Nat.ltb_spec 0 (length positional)) as [_|Hlen]; [done|].
      exfalso. apply Hcount. right. right. left. split; [done | lia].
    - destruct (Nat.ltb_spec 1 (length positional)) as [_|Hlen]; [done|].
      exfalso. apply Hcount. right. right. right. by split. }
  rewrite stop_after in Hmain.
  split; [|split].
  - rewrite Hmain. reflexivity.
  - unfold eval. by rewrite Hmain.
  - unfold exec at 1. rewrite Hmain. cbn [snd].
    apply only_adds_bind; [apply only_adds_emit; exact I|]. intros _.
    apply console_usageOf.
Qed.

(** X28. An invocation the parser and the argument count let through
    runs the handler of its command and ends with status 0, whatever the
    handler comes to, a failed load or a failed lookup included.  Add
    uses the first two positional arguments and remove the first; what
    follows them is ignored. *)
Theorem accepted_invocation_runs_the_handler_and_exits_0
  (arg0 : string) (rest : list string) (w w' : World) :
  (forall name version extra,
     flag_Parse (addUsage arg0) rest w
     = (Positional (name :: version :: extra), w') ->
     main lookup flag_Parse arg0 ("add" :: rest) w
     = (0%Z, exec (handleAddCmd name version) w'))
  /\ (forall name extra,
        flag_Parse (removeUsage arg0) rest w = (Positional (name :: extra), w') ->
        main lookup flag_Parse arg0 ("remove" :: rest) w
        = (0%Z, exec (handleRemoveCmd name) w'))
  /\ (flag_Parse (listUsage arg0) rest w = (Positional [], w') ->
      main lookup flag_Parse arg0 ("list" :: rest) w
      = (0%Z, exec handleListCmd w'))
  /\ (flag_Parse (checkUsage arg0) rest w = (Positional [], w') ->
      main lookup flag_Parse arg0 ("check" :: rest) w
      = (0%Z, exec (handleCheckCmd lookup "") w'))
  /\ (forall name,
        flag_Parse (checkUsage arg0) rest w = (Positional [name], w') ->
        main lookup flag_Parse arg0 ("check" :: rest) w
        = (0%Z, exec (handleCheckCmd lookup name) w')).
Proof.
  repeat split; intros; unfold main;
    cbn [GoString.eq String.eqb Ascii.eqb Bool.eqb];
    unfold bind at 1;
    match goal with H : flag_Parse _ _ _ = _ |- _ => rewrite H end;
    cbn [length Nat.ltb Nat.leb Nat.eqb nth];
    unfold exec, bind, ret;
    match goal with |- context [?h w'] => by destruct (h w') end.
Qed.

End Main.

(** ** The further properties at concrete inputs *)

Lemma failed_load_stops_every_command_witness :
  let w := Sample.machine_with "versions.toml" "not a table" Sample.batch_server in
  exists cause,
    handleAddCmd "owner/appA" "1.0.0" w
    = PrintError ("Could not load configuration: " +:+ cause) (exec loadConfig w)
    /\ files (exec (handleAddCmd "owner/appA" "1.0.0") w) = files w.
Proof.
  intros w.
  assert (exists cause, loadConfig w = (Err cause, exec loadConfig w))
    as (cause & Hload) by (eexists; vm_compute; reflexivity).
  exists cause.
  destruct (failed_load_stops_every_command getLatestVersionGitHubImpl
              cause "owner/appA" "1.0.0" "" w (exec loadConfig w) Hload)
    as (Hfiles & Hadd & _).
  split; [exact Hadd|]. unfold exec at 1. rewrite Hadd. exact Hfiles.
Defined.

Lemma empty_store_only_informs_witness :
  let w := Sample.machine "versions.toml" Sample.batch_server in
  handleListCmd w
  = PrintInfo "No applications currently managed. Use the 'add' command to add some."
              (exec loadConfig w)
  /\ handleCheckCmd getLatestVersionGitHubImpl "owner/appA" w
     = PrintInfo "No applications currently managed. Use 'add' command to add some."
                 (exec loadConfig w).
Proof.
  intros w.
  apply (empty_store_only_informs getLatestVersionGitHubImpl "owner/appA" w).
  vm_compute. reflexivity.
Defined.

Lemma skipped_identifier_is_not_looked_up_witness :
  let w := Sample.machine "versions.toml" Sample.batch_server in
  checkAppVersion getLatestVersionGitHubImpl "invalidAppFormat" "1.0.0" w
  = (tt, with_trace w (trace w ++ [EvStdout (skipLine "invalidAppFormat")])).
Proof.
  intros w.
  apply (skipped_identifier_is_not_looked_up getLatestVersionGitHubImpl).
  reflexivity.
Defined.

Lemma failed_lookup_is_reported_without_verdict_witness :
  let w := Sample.machine "versions.toml" Sample.batch_server in
  let w' := with_trace w [EvStdout (checkingLine "owner/app4")] in
  exec (checkAppVersion (fixedLookup (Err "mock network error")) "owner/app4" "1.0.0") w
  = with_trace w'
      (trace w' ++ [EvStdout nl;
                    EvStderr (colorRedFg +:+ "Error: "
                              +:+ ("Failed to check "
                                   +:+ Colorize "owner/app4" colorMagentaFg
                                   +:+ ": " +:+ "mock network error")
                              +:+ colorReset +:+ nl)]).
Proof.
  intros w w'.
  apply (failed_lookup_is_reported_without_verdict
           (fixedLookup (Err "mock network error"))
           "owner/app4" "1.0.0" "mock network error" w w').
  - vm_compute. lia.
  - reflexivity.
Defined.

Lemma check_of_untracked_name_looks_nothing_up_witness :
  handleCheckCmd getLatestVersionGitHubImpl "owner/nonExistentApp" Sample.batch_machine
  = PrintError ("Application '" +:+ Colorize "owner/nonExistentApp" colorYellowFg
                +:+ "' not found in your managed list.")
               (exec loadConfig Sample.batch_machine).
Proof.
  apply (check_of_untracked_name_looks_nothing_up getLatestVersionGitHubImpl
           "owner/nonExistentApp" Sample.batch).
  - vm_compute. reflexivity.
  - intros H. apply (f_equal (fun m : Config => m !! "owner/appA")) in H.
    vm_compute in H. discriminate H.
  - discriminate.
  - vm_compute. reflexivity.
Defined.

Lemma check_and_list_only_read_witness :
  only_adds (fun e => is_load_event e \/ is_console e \/ is_http e)
            (handleCheckCmd getLatestVersionGitHubImpl "")
  /\ only_adds (fun e => is_load_event e \/ is_console e) handleListCmd.
Proof.
  apply (check_and_list_only_read getLatestVersionGitHubImpl impl_network_only "").
Defined.

Lemma check_all_sends_one_request_per_checkable_identifier_witness :
  occurrences (releaseRequest "owner/appB" "")
    (emitted (handleCheckCmd getLatestVersionGitHubImpl "") Sample.batch_machine) = 1
  /\ occurrences (releaseRequest "invalidAppC" "")
    (emitted (handleCheckCmd getLatestVersionGitHubImpl "") Sample.batch_machine) = 0.
Proof.
  assert (loadConfig Sample.batch_machine
          = (Ok Sample.batch, exec loadConfig Sample.batch_machine)) as Hload
      by (vm_compute; reflexivity).
  assert (range_order Sample.batch_machine Sample.batch
          ≡ₚ map_to_list Sample.batch) as Horder by reflexivity.
  pose proof (check_all_sends_one_request_per_checkable_identifier
                Sample.batch Sample.batch_machine _ Hload Horder) as H.
  split.
  - rewrite (H "owner/appB" "0.5.0") by (vm_compute; reflexivity).
    vm_compute. reflexivity.
  - rewrite (H "invalidAppC" "2.0.0") by (vm_compute; reflexivity).
    vm_compute. reflexivity.
Defined.

Lemma listing_shows_every_entry_in_key_order_witness :
  exists entries : list (string * string),
    entries ≡ₚ map_to_list Sample.batch
    /\ StronglySorted lex_lt entries.*1
    /\ exec handleListCmd Sample.batch_machine
       = with_trace (exec loadConfig Sample.batch_machine)
           (trace (exec loadConfig Sample.batch_machine)
            ++ EvStdout (colorBold +:+ colorBlueFg +:+ "== "
                         +:+ "Managed Applications" +:+ " =="
                         +:+ colorReset +:+ nl)
            :: ((fun kv => EvStdout (listLine kv.1 kv.2)) <$> entries)).
Proof.
  apply (listing_shows_every_entry_in_key_order Sample.batch Sample.batch_machine).
  - vm_compute. reflexivity.
  - intros H. apply (f_equal (fun m : Config => m !! "owner/appA")) in H.
    vm_compute in H. discriminate H.
  - reflexivity.
Defined.

(** Upper case sorts before lower case: the listing is in byte order. *)
Example listing_in_byte_order :
  emitted handleListCmd
    (with_files (Sample.machine "versions.toml" Sample.batch_server)
       {[ "versions.toml" :=
            match Sample.marshal (<["appY" := "4.5.6"]> (<["appX" := "1.2.3"]>
                                    (<["Zeta" := "0.1"]> ∅)))
            with Ok data => data | Err _ => EmptyString end ]})
  = [EvStat "versions.toml"; EvReadFile "versions.toml";
     EvStdout (colorBold +:+ colorBlueFg +:+ "== Managed Applications =="
               +:+ colorReset +:+ nl);
     EvStdout (listLine "Zeta" "0.1");
     EvStdout (listLine "appX" "1.2.3");
     EvStdout (listLine "appY" "4.5.6")].
Proof. vm_compute. reflexivity. Qed.

Lemma missing_or_unknown_command_exits_1_witness :
  let w := Sample.batch_machine in
  eval (main getLatestVersionGitHubImpl Sample.flagParse "shouldupdate" ["upgrade"]) w
  = 1%Z
  /\ exists evs,
       exec (main getLatestVersionGitHubImpl Sample.flagParse "shouldupdate"
                  ["upgrade"]) w
       = with_trace w (trace w ++ evs)
       /\ Forall is_console evs.
Proof.
  intros w. apply missing_or_unknown_command_exits_1.
  intros command [= <-] H.
  repeat (apply elem_of_cons in H as [H|H]; [discriminate H|]).
  by apply elem_of_nil in H.
Defined.

Lemma parser_exit_is_the_exit_witness :
  let w := Sample.batch_machine in
  main getLatestVersionGitHubImpl Sample.flagParse "shouldupdate" ["add"; "-h"] w
  = (0%Z, exec (addUsage "shouldupdate") w).
Proof.
  intros w.
  apply (parser_exit_is_the_exit getLatestVersionGitHubImpl Sample.flagParse
           "add" "shouldupdate" ["-h"] 0 w).
  - by left.
  - vm_compute. reflexivity.
Defined.

(** The command line of the add test, then a listing with a stray word
    and a check of everything. *)
Example main_add_then_check :
  let run := main getLatestVersionGitHubImpl Sample.flagParse "shouldupdate" in
  let w := Sample.machine "versions.toml" Sample.batch_server in
  eval (run ["add"; "owner/appA"; "1.0.0"; "ignored"]) w = 0%Z
  /\ stored (exec (run ["add"; "owner/appA"; "1.0.0"; "ignored"]) w)
            {[ "owner/appA" := "1.0.0" ]}
  /\ eval (run ["list"; "stray"]) w = 1%Z
  /\ eval (run ["check"]) (exec (run ["add"; "owner/appA"; "1.0.0"]) w) = 0%Z.
Proof. vm_compute. repeat split. Qed.

Lemma save_touches_only_the_config_file_witness :
  let w := with_files (Sample.machine "versions.toml" Sample.batch_server)
                      {[ "notes.txt" := "keep" ]} in
  files (exec (saveConfig Sample.batch) w) !! "notes.txt" = Some "keep"
  /\ configFile (exec (saveConfig Sample.batch) w) = "versions.toml".
Proof.
  intros w.
  destruct (save_touches_only_the_config_file Sample.batch "notes.txt" w)
    as [Hfile Hpath]; [discriminate|].
  split; [by rewrite Hfile | exact Hpath].
Defined.

(** ** Processing an entry *)

Section Processing.

Context {lib : GoLib}.
Variable lookup : string -> string -> M (result string).

(** The verdict the comparisons of [checkAppVersion] arrive at is the
    one of the byte-wise order. *)
Lemma code_verdict (currentVersion latestVersion : string) :
  verdict_for currentVersion latestVersion
    (if GoString.eq latestVersion currentVersion then UpToDate
     else if GoString.gt latestVersion currentVersion then UpdateAvailable
     else VersionDiscrepancy).
Proof.
  unfold verdict_for.
  destruct (GoString.eq latestVersion currentVersion) eqn:E.
  - apply eq_true in E as ->. repeat split; try done.
    + intros H. by apply lex_lt_irrefl in H.
    + intros H. by apply lex_lt_irrefl in H.
  - apply eq_false in E.
    destruct (GoString.gt latestVersion currentVersion) eqn:G.
    + apply gt_true in G. repeat split; try done.
      intros H. by apply lex_lt_asym in H.
    + assert (lex_lt latestVersion currentVersion) as L.
      { apply cmp_Lt. unfold GoString.gt in G.
        destruct (GoString.cmp latestVersion currentVersion) eqn:C;
          [by apply cmp_Eq in C | done | done]. }
      repeat split; try done.
      intros H. by apply lex_lt_asym in H.
Qed.

(** A call of [checkAppVersion] processes its entry. *)
Lemma checkAppVersion_processed (appName currentVersion : string) (w : World) :
  processed lookup appName currentVersion w
    (exec (checkAppVersion lookup appName currentVersion) w).
Proof.
  destruct (slashes appName) as [|n] eqn:Hn.
  { unfold exec, checkAppVersion.
    rewrite (proj2 (Contains_slash_false _) (proj1 (slashes_zero _) Hn)).
    by apply processed_skipped. }
  assert (1 <= slashes appName) as Hid by lia.
  destruct (lookup appName ""
              (with_trace w (trace w ++ [EvStdout (checkingLine appName)])))
    as [r w1] eqn:Hlook.
  assert (exec (checkAppVersion lookup appName currentVersion) w
          = match r with
            | Ok latestVersion =>
                with_trace w1
                  (trace w1
                   ++ [reports (if GoString.eq latestVersion currentVersion
                                then UpToDate
                                else if GoString.gt latestVersion currentVersion
                                then UpdateAvailable else VersionDiscrepancy)
                               currentVersion latestVersion])
            | Err cause =>
                with_trace w1 (trace w1 ++ [EvStdout nl;
                                            EvStderr (failedLine appName cause)])
            end) as ->.
  { unfold exec, checkAppVersion.
    rewrite (proj2 (Contains_slash _) (proj1 (slashes_pos _) Hid)).
    cbn [negb]. unfold bind at 1, emit at 1. unfold bind at 1.
    fold (checkingLine appName). rewrite Hlook.
    destruct r as [latestVersion|cause].
    - destruct (GoString.eq latestVersion currentVersion); [done|].
      cbv zeta. by destruct (GoString.gt latestVersion currentVersion).
    - unfold bind, PrintError, emit, with_trace, failedLine. cbn.
      by rewrite <- app_assoc. }
  destruct r as [latestVersion|cause].
  - eapply processed_compared; [done | exact Hlook | apply code_verdict].
  - by eapply processed_failed.
Qed.

(** The loop processes the entries it walks, one after the other. *)
Lemma for_each_processed (entries : list (string * string)) (w : World) :
  processed_all lookup entries w
    (exec (for_each (fun kv => checkAppVersion lookup kv.1 kv.2) entries) w).
Proof.
  revert w. induction entries as [|[k v] entries IH]; intros w.
  - apply processed_none.
  - simpl for_each. rewrite exec_then.
    eapply processed_next; [apply checkAppVersion_processed | apply IH].
Qed.

(** C2. A check of all tracked identifiers processes the entries of the
    store one after the other in the order [range] walks them, each
    tracked identifier once: it is skipped with its notice, or its
    lookup is run and then either its verdict against the recorded
    version or the failure of the lookup is reported.  Whatever an
    entry comes to, the entries after it are processed all the same.
    With a lookup that only talks to the network, the trace holds one
    opening line for every tracked identifier. *)
Theorem check_all_processes_every_identifier_once
  (config : Config) (w w1 : World) :
  loadConfig w = (Ok config, w1) ->
  config <> ∅ ->
  range_order w config ≡ₚ map_to_list config ->
  NoDup (range_order w config).*1
  /\ (forall appName version,
        config !! appName = Some version
        <-> (appName, version) ∈ range_order w config)
  /\ processed_all lookup (range_order w config)
       (with_trace w1 (trace w1 ++ [checkAllHeader]))
       (exec (handleCheckCmd lookup "") w)
  /\ (network_only lookup ->
      forall appName version,
        config !! appName = Some version ->
        starts appName (emitted (handleCheckCmd lookup "") w) = 1).
Proof.
  intros Hload Hne Horder. split; [|split; [|split]].
  - rewrite Horder. apply NoDup_fst_map_to_list.
  - intros appName version. rewrite Horder. symmetry.
    apply elem_of_map_to_list.
  - destruct (loadConfig_frame w) as (evs0 & Hw1 & _).
    unfold exec in Hw1. rewrite Hload in Hw1. cbn in Hw1. subst w1.
    assert (exec (handleCheckCmd lookup "") w
            = exec (for_each (fun kv => checkAppVersion lookup kv.1 kv.2)
                             (range_order w config))
                   (with_trace (with_trace w (trace w ++ evs0))
                      (trace (with_trace w (trace w ++ evs0))
                       ++ [checkAllHeader]))) as ->.
    { unfold exec, handleCheckCmd. unfold bind at 1. rewrite Hload.
      destruct (Nat.eqb_spec (size config) 0) as [H%map_size_empty_iff|_];
        [done|].
      cbn [negb GoString.eq String.eqb]. reflexivity. }
    apply for_each_processed.
  - intros Hnet appName version Hin.
    by apply (check_all_starts lookup config w w1 Hnet Hload Horder
                appName version).
Qed.

(** X22. A check of one tracked name processes that name with the
    version the store holds for it: the name is skipped, or its lookup
    is run and the verdict of the returned version against the stored
    one, or the failure, is reported.  With a lookup that only talks to
    the network, the check of that name is opened once and the check of
    no other identifier is opened. *)
Theorem named_check_processes_that_name_with_its_version
  (specificApp version : string) (config : Config) (w w1 : World) :
  network_only lookup ->
  loadConfig w = (Ok config, w1) ->
  specificApp <> "" ->
  config !! specificApp = Some version ->
  processed lookup specificApp version w1
    (exec (handleCheckCmd lookup specificApp) w)
  /\ forall a,
       starts a (emitted (handleCheckCmd lookup specificApp) w)
       = if decide (a = specificApp) then 1 else 0.
Proof.
  intros Hnet Hload Hname Hin. split.
  - assert (exec (handleCheckCmd lookup specificApp) w
            = exec (checkAppVersion lookup specificApp version) w1) as ->.
    { unfold exec, handleCheckCmd. unfold bind at 1. rewrite Hload.
      destruct (Nat.eqb_spec (size config) 0) as [H%map_size_empty_iff|_].
      { subst config. by rewrite lookup_empty in Hin. }
      by rewrite (proj2 (eq_false _ _) Hname), Hin. }
    apply checkAppVersion_processed.
  - by apply (named_check_starts lookup Hnet specificApp version config w w1).
Qed.

End Processing.

Lemma check_all_processes_every_identifier_once_witness :
  let lookup := getLatestVersionGitHubImpl in
  let w := Sample.batch_machine in
  NoDup (range_order w Sample.batch).*1
  /\ (forall appName version,
        Sample.batch !! appName = Some version
        <-> (appName, version) ∈ range_order w Sample.batch)
  /\ processed_all lookup (range_order w Sample.batch)
       (with_trace (exec loadConfig w)
          (trace (exec loadConfig w) ++ [checkAllHeader]))
       (exec (handleCheckCmd lookup "") w)
  /\ (network_only lookup ->
      forall appName version,
        Sample.batch !! appName = Some version ->
        starts appName (emitted (handleCheckCmd lookup "") w) = 1).
Proof.
  intros lookup w.
  apply (check_all_processes_every_identifier_once lookup Sample.batch w
           (exec loadConfig w)).
  - vm_compute. reflexivity.
  - intros H. apply (f_equal (fun m : Config => m !! "owner/appA")) in H.
    vm_compute in H. discriminate H.
  - reflexivity.
Defined.

(** The whole of the batch of the tests, in an order that starts with
    the identifier that is skipped and the one whose lookup fails: the
    third is still looked up and found up to date. *)
Example batch_in_full :
  emitted (handleCheckCmd getLatestVersionGitHubImpl "")
    {| configFile := "versions.toml";
       files := {[ "versions.toml" := Sample.batch_file ]};
       read_error := fun _ => None; mkdir_error := fun _ => None;
       write_error := fun _ => None; server := Sample.batch_server;
       range_order := fun _ => [("invalidAppC", "2.0.0");
                                ("owner/appB", "0.5.0");
                                ("owner/appA", "1.0.0")];
       trace := [] |}
  = [EvStat "versions.toml"; EvReadFile "versions.toml"; checkAllHeader;
     EvStdout (skipLine "invalidAppC");
     EvStdout (checkingLine "owner/appB");
     releaseRequest "owner/appB" "";
     EvStdout nl;
     EvStderr (failedLine "owner/appB"
                 "GitHub API error for owner/appB (status 404) (URL: https://api.github.com/repos/owner/appB/releases/latest)");
     EvStdout (checkingLine "owner/appA");
     releaseRequest "owner/appA" "";
     reports UpToDate "1.0.0" "1.0.0"].
Proof. vm_compute. reflexivity. Qed.

Lemma named_check_processes_that_name_with_its_version_witness :
  let lookup := getLatestVersionGitHubImpl in
  let w := Sample.batch_machine in
  processed lookup "owner/appA" "1.0.0" (exec loadConfig w)
    (exec (handleCheckCmd lookup "owner/appA") w)
  /\ forall a,
       starts a (emitted (handleCheckCmd lookup "owner/appA") w)
       = if decide (a = "owner/appA") then 1 else 0.
Proof.
  intros lookup w.
  apply (named_check_processes_that_name_with_its_version lookup
           "owner/appA" "1.0.0" Sample.batch w (exec loadConfig w)).
  - apply impl_network_only.
  - vm_compute. reflexivity.
  - discriminate.
  - vm_compute. reflexivity.
Defined.

(** ** Where the store does not give back what the claims say *)


(** What happens there: the save returns no error, the load the parse
    failure. *)
Example non_utf8_version_saved_then_refused :
  let w := Sample.machine "versions.toml" (fun _ => TransportError "unused") in
  eval (saveConfig Sample.not_utf8) w = None
  /\ eval loadConfig (exec (saveConfig Sample.not_utf8) w)
     = Err "could not parse config file 'versions.toml' (TOML format error): toml: invalid UTF-8".
Proof. vm_compute. split; reflexivity. Qed.

(** C7 as stated fails: with no file at the path of the store and a
    path that cannot be looked at, the load does not return the empty
    map. *)
Lemma absent_file_on_unreachable_path_is_a_failure :
  ~ missing_loads_empty Sample.unreachable_machine.
Proof.
  unfold missing_loads_empty. intros H.
  assert (files Sample.unreachable_machine
          !! configFile Sample.unreachable_machine = None) as Hf
      by (vm_compute; reflexivity).
  specialize (H Hf). vm_compute in H. discriminate H.
Qed.

(** What happens there: the read failure. *)
Example absent_file_on_unreachable_path :
  eval loadConfig Sample.unreachable_machine
  = Err "could not read config file '/home/u/.config/shouldupdate/versions.toml': not a directory".
Proof. vm_compute. reflexivity. Qed.

Lemma wrong_argument_count_exits_1_witness :
  let w := Sample.batch_machine in
  main getLatestVersionGitHubImpl Sample.flagParse "shouldupdate"
       ["list"; "stray"] w
  = (1%Z, exec (usageOf "list" "shouldupdate")
               (with_trace w
                  (trace w ++ [EvStderr (colorRedFg +:+ "Error: "
                                         +:+ countError "list"
                                         +:+ colorReset +:+ nl)]))).
Proof.
  intros w.
  apply (wrong_argument_count_exits_1 getLatestVersionGitHubImpl Sample.flagParse
           "list" "shouldupdate" ["stray"] ["stray"] w w).
  - right. right. by left.
  - reflexivity.
  - unfold takes. cbn. intros [[H _]|[[H _]|[[_ H]|[H _]]]];
      discriminate H.
Defined.
